(** * SatsForGood: the invoice and donation lifecycle of [src/lib/api.ts]

    A shallow embedding of the TypeScript API layer of the donation
    application and of the pieces of the user interface that call it:

    - [MockApi]: the in-memory API of [src/lib/api.ts] (one pending invoice
      slot, a poll counter, the list of donations);
    - [DonateForm]: the amount validation of the donation form's schema and
      the submit path that reaches [createInvoice];
    - [BackendApi]: the HTTP client version of the API ([confirmPayment],
      [getInvoiceStatus], [getDonationReceipt]) and the receipt component's
      fetch effect;
    - [InvoiceQR]: the invoice panel, with its polling callback, its
      countdown and [formatTime];
    - [Home]: the state of the page, its handlers and what it renders;
    - [Flow]: one donation from the form to the dashboard.

    Conventions of the embedding.

    - A JavaScript [number] that the program only uses as an integer (an
      amount in satoshis, a counter, a length, [Date.now()]) is a [Z].  A
      sum of such numbers is a double: [Js.add] rounds it as the source's
      [+] does, and its result is a [Js.Num], which can be infinite.
    - The wall clock is an input: every operation takes [now], the value
      [Date.now()] has when the body of the operation runs (each [async]
      function awaits one timer first and then runs to completion without
      yielding, so its body is one atomic step).
    - [paid_at] holds the instant in milliseconds that the source renders
      with [toISOString]; the rendering is one-to-one on instants.
    - Module-level [let] variables are the fields of an explicit [State]
      that every operation takes and returns.
    - An optional field or argument ([x?: string]) is an [option]. *)

From Stdlib Require Import ZArith List String Ascii Bool Lia.
From Stdlib Require Import DecimalString DecimalZ.
Import ListNotations.

Open Scope string_scope.
Open Scope Z_scope.

(** ** JavaScript helpers *)

Module Js.

(** [`${n}`] for an integer [n]: its decimal digits, with a minus sign when
    negative. *)
Definition numToString (n : Z) : string :=
  NilEmpty.string_of_int (Z.to_int n).

(** The characters matched by the regular expression [\s], among the
    characters of an ASCII string: tab, line feed, vertical tab, form feed,
    carriage return and space. *)
Definition isWhitespace (c : ascii) : bool :=
  let n := nat_of_ascii c in
  ((9 <=? n)%nat && (n <=? 13)%nat) || (n =? 32)%nat.

(** [s.replace(/\s/g, "_")]. *)
Fixpoint replaceWhitespace (s : string) : string :=
  match s with
  | EmptyString => EmptyString
  | String c rest =>
      String (if isWhitespace c then "_"%char else c) (replaceWhitespace rest)
  end.

(** [x || fallback] for an optional string: [undefined] and the empty
    string are the falsy values. *)
Definition orElse (x : option string) (fallback : string) : string :=
  match x with
  | None => fallback
  | Some EmptyString => fallback
  | Some v => v
  end.

(** A default parameter value, [x: string = d]: used when the argument is
    [undefined], that is absent. *)
Definition defaultArg (x : option string) (d : string) : string :=
  match x with
  | None => d
  | Some v => v
  end.

(** A [number] that results from adding integers: a double with an integer
    value, or an infinity. *)
Inductive Num : Type :=
| Finite (z : Z)
| PosInfinity
| NegInfinity.

(** The double nearest to the integer [x], ties to the even significand.
    Integers of magnitude up to 2^53 are doubles themselves.  A larger one
    has a 53-bit significand [q] and an exponent [e]; when rounding reaches
    2^1024 the result is an infinity. *)
Definition roundToDouble (x : Z) : Num :=
  let m := Z.abs x in
  if m <=? 9007199254740992 then Finite x
  else
    let e := Z.log2 m - 52 in
    let q := m / 2 ^ e in
    let r := m mod 2 ^ e in
    let q' :=
      if 2 * r <? 2 ^ e then q
      else if 2 ^ e <? 2 * r then q + 1
      else if Z.even q then q else q + 1 in
    let y := q' * 2 ^ e in
    if 2 ^ 1024 <=? y then (if 0 <? x then PosInfinity else NegInfinity)
    else Finite (Z.sgn x * y).

(** [acc + b] for an accumulator [acc] and an integer [b]: the exact sum,
    rounded; an infinite accumulator stays as it is. *)
Definition add (acc : Num) (b : Z) : Num :=
  match acc with
  | Finite a => roundToDouble (a + b)
  | PosInfinity => PosInfinity
  | NegInfinity => NegInfinity
  end.

(** [s.slice(0, n)] on a string, for [n >= 0]. *)
Definition sliceTo (n : nat) (s : string) : string := substring 0 n s.

End Js.

(** ** Types of [src/lib/types.ts] *)

Inductive Status : Type := PENDING | PAID | EXPIRED.

Module Invoice.
Record t : Type := mk {
  invoice : string;
  payment_hash : string;
  expires_in : Z;
  donor_name : option string;
  recipient : option string;
  amount_sats : Z;
  qr_code : option string
}.
End Invoice.

Module InvoiceStatus.
Record t : Type := mk {
  status : Status;
  paid_at : option Z
}.
End InvoiceStatus.

Module Donation.
Record t : Type := mk {
  id : string;
  donor_name : string;
  recipient : option string;
  amount_sats : Z;
  status : Status;
  paid_at : Z
}.
End Donation.

Module Stats.
Record t : Type := mk {
  totalSats : Js.Num;
  donorCount : Z
}.
End Stats.

(** ** The in-memory API, [src/lib/api.ts] *)

Module MockApi.

(** The module-level variables [mockDonations], [pendingInvoice] and
    [pollCount]. *)
Record State : Type := mkState {
  mockDonations : list Donation.t;
  pendingInvoice : option Invoice.t;
  pollCount : Z
}.

(** Their initial values. *)
Definition init : State :=
  {| mockDonations := []; pendingInvoice := None; pollCount := 0 |}.

Definition mkPaymentHash (now : Z) : string :=
  "mock_payment_hash_" ++ Js.numToString now.

Definition mkInvoiceString (amount_sats : Z) (donor_name payment_hash : string)
  : string :=
  "ln-testnet-invoice-" ++ Js.numToString amount_sats ++ "-"
    ++ Js.replaceWhitespace donor_name ++ "-" ++ payment_hash.

(** [createInvoice(amount_sats, donor_name = "Anonymous", recipient?)].
    There is no check on [amount_sats]; the new invoice replaces whatever
    the slot held and the poll counter restarts. *)
Definition createInvoice (amount_sats : Z) (donor_name recipient : option string)
    (now : Z) (s : State) : Invoice.t * State :=
  let donor_name := Js.defaultArg donor_name "Anonymous" in
  let payment_hash := mkPaymentHash now in
  let invoiceString := mkInvoiceString amount_sats donor_name payment_hash in
  let newInvoice :=
    {| Invoice.invoice := invoiceString;
       Invoice.payment_hash := payment_hash;
       Invoice.expires_in := 3600;
       Invoice.donor_name := Some donor_name;
       Invoice.recipient := recipient;
       Invoice.amount_sats := amount_sats;
       Invoice.qr_code := None |} in
  (newInvoice,
   {| mockDonations := mockDonations s;
      pendingInvoice := Some newInvoice;
      pollCount := 0 |}).

(** The donation built from the pending invoice when its payment is
    simulated. *)
Definition newDonation (ledger : list Donation.t) (inv : Invoice.t) (paid_at : Z)
  : Donation.t :=
  {| Donation.id := Js.numToString (Z.of_nat (List.length ledger) + 1);
     Donation.donor_name := Js.orElse (Invoice.donor_name inv) "Anonymous";
     Donation.recipient := Invoice.recipient inv;
     Donation.amount_sats := Invoice.amount_sats inv;
     Donation.status := PAID;
     Donation.paid_at := paid_at |}.

Definition pendingReply : InvoiceStatus.t :=
  {| InvoiceStatus.status := PENDING; InvoiceStatus.paid_at := None |}.

Definition paidReply (paid_at : Z) : InvoiceStatus.t :=
  {| InvoiceStatus.status := PAID; InvoiceStatus.paid_at := Some paid_at |}.

(** [getInvoiceStatus(payment_hash)].  A hash other than the pending
    invoice's (or any hash when the slot is empty) answers PENDING and
    changes nothing.  Otherwise the poll is counted, and from the second
    poll on the payment is simulated: a donation goes to the front of the
    list and the slot is cleared. *)
Definition getInvoiceStatus (payment_hash : string) (now : Z) (s : State)
  : InvoiceStatus.t * State :=
  match pendingInvoice s with
  | None => (pendingReply, s)
  | Some inv =>
      if negb (String.eqb payment_hash (Invoice.payment_hash inv)) then
        (pendingReply, s)
      else
        let pollCount' := pollCount s + 1 in
        if 2 <=? pollCount' then
          let paid_at := now in
          let d := newDonation (mockDonations s) inv paid_at in
          (paidReply paid_at,
           {| mockDonations := d :: mockDonations s;
              pendingInvoice := None;
              pollCount := 0 |})
        else
          (pendingReply,
           {| mockDonations := mockDonations s;
              pendingInvoice := pendingInvoice s;
              pollCount := pollCount' |})
  end.

(** [getRecentDonations()]: it has no parameter; [slice(0, 5)]. *)
Definition getRecentDonations (s : State) : list Donation.t :=
  firstn 5 (mockDonations s).

(** [getDonationStats()]: a [reduce] from the left over the list, adding
    with the source's [+] from 0, and the length of the list. *)
Definition getDonationStats (s : State) : Stats.t :=
  let totalSats :=
    fold_left (fun acc donation => Js.add acc (Donation.amount_sats donation))
              (mockDonations s) (Js.Finite 0) in
  {| Stats.totalSats := totalSats;
     Stats.donorCount := Z.of_nat (List.length (mockDonations s)) |}.

(** *** Calls, replies and runs *)

Inductive Call : Type :=
| CreateInvoice (amount_sats : Z) (donor_name recipient : option string)
| GetInvoiceStatus (payment_hash : string)
| GetRecentDonations
| GetDonationStats.

Inductive Reply : Type :=
| RInvoice (i : Invoice.t)
| RStatus (r : InvoiceStatus.t)
| RDonations (ds : list Donation.t)
| RStats (st : Stats.t).

(** One call of the API at clock value [now]. *)
Definition step (now : Z) (c : Call) (s : State) : Reply * State :=
  match c with
  | CreateInvoice a n r =>
      let (i, s') := createInvoice a n r now s in (RInvoice i, s')
  | GetInvoiceStatus h =>
      let (r, s') := getInvoiceStatus h now s in (RStatus r, s')
  | GetRecentDonations => (RDonations (getRecentDonations s), s)
  | GetDonationStats => (RStats (getDonationStats s), s)
  end.

(** What one call of a run did. *)
Record Event : Type := mkEvent {
  ev_now : Z;
  ev_call : Call;
  ev_pre : State;
  ev_reply : Reply;
  ev_post : State
}.

(** The events of a sequence of timed calls, in order. *)
Fixpoint trace (cs : list (Z * Call)) (s : State) : list Event :=
  match cs with
  | [] => []
  | (now, c) :: rest =>
      let (r, s') := step now c s in
      mkEvent now c s r s' :: trace rest s'
  end.

(** The state a sequence of timed calls ends in. *)
Fixpoint run (cs : list (Z * Call)) (s : State) : State :=
  match cs with
  | [] => s
  | (now, c) :: rest => run rest (snd (step now c s))
  end.

(** The states the program can be in. *)
Inductive reachable : State -> Prop :=
| reachable_init : reachable init
| reachable_step now c s : reachable s -> reachable (snd (step now c s)).

(** The states the program can be in at clock value [t] when the clock never
    goes back. *)
Inductive reachable_at : Z -> State -> Prop :=
| reachable_at_init t : reachable_at t init
| reachable_at_step t now c s :
    reachable_at t s -> t <= now -> reachable_at now (snd (step now c s)).



(** Non-increasing [paid_at] along a list: most recent first. *)
Fixpoint newestFirst (ds : list Donation.t) : Prop :=
  match ds with
  | [] => True
  | d :: rest =>
      (forall d', In d' rest -> Donation.paid_at d' <= Donation.paid_at d)
      /\ newestFirst rest
  end.

(** Poll the same hash at each of the given clock values. *)
Definition polls (h : string) (ts : list Z) : list (Z * Call) :=
  map (fun t => (t, GetInvoiceStatus h)) ts.

(** What holds of the ledger at clock value [t]: no donation was paid after
    [t], the most recent comes first, and the donation at position [i] from
    the front was the [(length - i)]-th to be put on the ledger. *)
Definition ledgerOrdered (t : Z) (ds : list Donation.t) : Prop :=
  (forall d, In d ds -> Donation.paid_at d <= t)
  /\ newestFirst ds
  /\ (forall i d, nth_error ds i = Some d ->
        Donation.id d = Js.numToString (Z.of_nat (List.length ds - i))).

(** The clock values of a sequence of timed calls never go back, from [t]
    on. *)
Fixpoint clockOk (t : Z) (cs : list (Z * Call)) : bool :=
  match cs with
  | [] => true
  | (now, _) :: rest => (t <=? now) && clockOk now rest
  end.

(** The clock value of the last call, [t] when there is none. *)
Fixpoint lastClock (t : Z) (cs : list (Z * Call)) : Z :=
  match cs with
  | [] => t
  | (now, _) :: rest => lastClock now rest
  end.

(** A call that creates an invoice at clock value [t]. *)
Definition createsAt (t : Z) (tc : Z * Call) : Prop :=
  match snd tc with
  | CreateInvoice _ _ _ => fst tc = t
  | _ => False
  end.

(** The pending slot does not hold an invoice of hash [h]. *)
Definition notPending (h : string) (s : State) : Prop :=
  forall inv, pendingInvoice s = Some inv -> Invoice.payment_hash inv <> h.

(** What an event of a run shows when the hash [h] is out of the slot for
    good: the slot did not hold it before the call; a poll of [h] was
    answered PENDING and changed nothing; and a donation that the call put
    on the ledger was built from an invoice of another hash. *)
Definition staysPending (h : string) (e : Event) : Prop :=
  notPending h (ev_pre e)
  /\ (ev_call e = GetInvoiceStatus h ->
      ev_reply e = RStatus pendingReply /\ ev_post e = ev_pre e)
  /\ (mockDonations (ev_post e) = mockDonations (ev_pre e)
      \/ exists inv,
           pendingInvoice (ev_pre e) = Some inv
           /\ Invoice.payment_hash inv <> h
           /\ mockDonations (ev_post e)
              = newDonation (mockDonations (ev_pre e)) inv (ev_now e)
                  :: mockDonations (ev_pre e)).

End MockApi.

(** ** The donation form, [src/components/donate-form.tsx] *)

Module DonateForm.

(** The values of the form when it is submitted.  [amount] is what
    [z.coerce.number] makes of the input field: [None] when the coercion
    does not give a number. *)
Record Values : Type := mkValues {
  name : option string;
  recipient : option string;
  amount : option Z
}.

Inductive Validation (A : Type) : Type :=
| Valid (a : A)
| Invalid (message : string).
Arguments Valid {A} a.
Arguments Invalid {A} message.

(** The [amount] field of [formSchema]: a number, [min(1)], [max(1000000)].
    The schema asks for no integer; the embedding covers the integer
    amounts. *)
Definition formSchema_amount (input : option Z) : Validation Z :=
  match input with
  | None => Invalid "Please enter a number."
  | Some n =>
      if n <? 1 then Invalid "Donation must be at least 1 sat."
      else if 1000000 <? n then Invalid "Donation cannot exceed 1,000,000 sats."
      else Valid n
  end.

(** [form.handleSubmit(onSubmit)]: [onSubmit] runs only on values that pass
    the schema, and hands them through [onCreateInvoice] (the page's
    [handleCreateInvoice]) to [createInvoice]. *)
Definition handleSubmit (v : Values) (now : Z) (s : MockApi.State)
  : Validation (Invoice.t * MockApi.State) :=
  match formSchema_amount (amount v) with
  | Valid n => Valid (MockApi.createInvoice n (name v) (recipient v) now s)
  | Invalid m => Invalid m
  end.

End DonateForm.

(** ** The HTTP client API and the receipt component *)

Module BackendApi.

(** What a [fetch] of a backend endpoint comes to: the promise rejects (the
    backend cannot be reached), or there is a response with its [ok] flag
    and the result of [response.json()], [None] when that rejects. *)
Inductive Fetch (A : Type) : Type :=
| Rejected
| Response (ok : bool) (json : option A).
Arguments Rejected {A}.
Arguments Response {A} ok json.

(** The backend call did not deliver an answer. *)
Definition failed {A : Type} (r : Fetch A) : bool :=
  match r with
  | Response true (Some _) => false
  | _ => true
  end.

Inductive Error : Type :=
| FetchRejected
| JsonRejected
| Failure (message : string).

(** The result of an [async] function: it resolves or it throws. *)
Inductive Outcome (A : Type) : Type :=
| Returns (a : A)
| Throws (e : Error).
Arguments Returns {A} a.
Arguments Throws {A} e.

(** [getInvoiceStatus(payment_hash)] over HTTP. *)
Definition getInvoiceStatus (r : Fetch InvoiceStatus.t) : Outcome InvoiceStatus.t :=
  match r with
  | Rejected => Throws FetchRejected
  | Response false _ => Throws (Failure "Failed to check payment status")
  | Response true None => Throws JsonRejected
  | Response true (Some data) =>
      Returns {| InvoiceStatus.status := InvoiceStatus.status data;
                 InvoiceStatus.paid_at := InvoiceStatus.paid_at data |}
  end.

(** [confirmPayment(payment_hash)]: the [try] block returns the backend's
    answer when there is one; an exception is caught and logged, and every
    other path falls through to the simulated confirmation. *)
Definition confirmPayment (r : Fetch InvoiceStatus.t) (now : Z) : InvoiceStatus.t :=
  match r with
  | Response true (Some data) =>
      {| InvoiceStatus.status := InvoiceStatus.status data;
         InvoiceStatus.paid_at := InvoiceStatus.paid_at data |}
  | _ =>
      {| InvoiceStatus.status := PAID; InvoiceStatus.paid_at := Some now |}
  end.

Record DonationReceipt : Type := mkReceipt {
  id : string;
  donor_name : string;
  recipient : option string;
  amount_sats : Z;
  payment_hash : string;
  paid_at : Z;
  transaction_id : string;
  network : string
}.

(** [getDonationReceipt(payment_hash)]. *)
Definition getDonationReceipt (r : Fetch DonationReceipt) : Outcome DonationReceipt :=
  match r with
  | Rejected => Throws FetchRejected
  | Response false _ => Throws (Failure "Failed to fetch donation receipt")
  | Response true None => Throws JsonRejected
  | Response true (Some data) => Returns data
  end.

(** The properties of [DonationReceiptComponent] that its effect reads. *)
Record ReceiptProps : Type := mkProps {
  props_payment_hash : string;
  props_amount_sats : Z;
  props_donor_name : string;
  props_recipient : option string
}.

(** The receipt the component builds itself in its [catch] branch; the
    clock reads of that branch are one value, [now]. *)
Definition fallbackReceipt (p : ReceiptProps) (now : Z) : DonationReceipt :=
  {| id := "donation_" ++ Js.numToString now;
     donor_name := props_donor_name p;
     recipient := props_recipient p;
     amount_sats := props_amount_sats p;
     payment_hash := props_payment_hash p;
     paid_at := now;
     transaction_id :=
       "lntx1" ++ Js.sliceTo 8 (props_payment_hash p) ++ "w"
         ++ Js.numToString (props_amount_sats p);
     network := "Bitcoin Lightning Network (Testnet)" |}.

(** [fetchReceipt] of the component's effect: the receipt it sets. *)
Definition fetchReceipt (p : ReceiptProps) (r : Fetch DonationReceipt) (now : Z)
  : DonationReceipt :=
  match getDonationReceipt r with
  | Returns receiptData => receiptData
  | Throws _ => fallbackReceipt p now
  end.

End BackendApi.

(** ** Concrete runs *)

Module Scenario.
Import MockApi.

(** A clock value, in milliseconds. *)
Definition t0 : Z := 1700000000000.

(** [createInvoice(1000, "Ann", "Shelter")] in a fresh process. *)
Definition annCreated : Invoice.t * State :=
  createInvoice 1000 (Some "Ann") (Some "Shelter") t0 init.
Definition annInvoice : Invoice.t := fst annCreated.
Definition annHash : string := Invoice.payment_hash annInvoice.

(** The first poll of that invoice, three seconds later, and the second. *)
Definition annPolledOnce : State :=
  snd (getInvoiceStatus annHash (t0 + 3000) (snd annCreated)).

(** The same invoice left alone until after its hour has passed. *)
Definition afterExpiry : Z := t0 + 3600 * 1000 + 1.

(** A second invoice created at the very clock value of the first. *)
Definition bobCreated : Invoice.t * State :=
  createInvoice 2000 (Some "Bob") None t0 (snd annCreated).

(** A whole donation: the invoice and the two polls that promote it. *)
Definition donate (t amount : Z) (name : string) : list (Z * Call) :=
  [ (t, CreateInvoice amount (Some name) None);
    (t + 3000, GetInvoiceStatus (mkPaymentHash t));
    (t + 6000, GetInvoiceStatus (mkPaymentHash t)) ].

(** Five successful payments, ten seconds apart. *)
Definition fivePayments : list (Z * Call) :=
  (donate t0 100 "A" ++ donate (t0 + 10000) 200 "B"
   ++ donate (t0 + 20000) 300 "C" ++ donate (t0 + 30000) 400 "D"
   ++ donate (t0 + 40000) 500 "E")%list.
Definition afterFive : State := run fivePayments init.


(** Invoices created with an empty and with a blank donor name. *)
Definition emptyNameCreated : Invoice.t * State :=
  createInvoice 1000 (Some "") None t0 init.
Definition blankNameCreated : Invoice.t * State :=
  createInvoice 1000 (Some "   ") None t0 init.

(** The state after the two polls that promote a just created invoice. *)
Definition promoted (c : Invoice.t * State) : State :=
  let h := Invoice.payment_hash (fst c) in
  snd (getInvoiceStatus h (t0 + 6000)
         (snd (getInvoiceStatus h (t0 + 3000) (snd c)))).

End Scenario.

(** ** What a run shows *)

Module Observed.
Import MockApi.

(** The reply is a status PAID. *)
Definition isPaid (r : Reply) : bool :=
  match r with
  | RStatus x =>
      match InvoiceStatus.status x with
      | PAID => true
      | _ => false
      end
  | _ => false
  end.

(** How many calls of a run were answered PAID. *)
Definition paidReplies (es : list Event) : nat :=
  List.length (filter (fun e => isPaid (ev_reply e)) es).

(** The donation at position [i] from the front of the ledger carries the
    number [length - i]: donations are numbered from 1 in the order they
    were put on the ledger. *)
Definition numbered (ds : list Donation.t) : Prop :=
  forall i d, nth_error ds i = Some d ->
    Donation.id d = Js.numToString (Z.of_nat (List.length ds - i)).

(** How many calls of a sequence create an invoice. *)
Fixpoint creations (cs : list (Z * Call)) : nat :=
  match cs with
  | [] => 0%nat
  | (_, CreateInvoice _ _ _) :: rest => S (creations rest)
  | _ :: rest => creations rest
  end.

(** 1 when an invoice is in the pending slot, 0 when the slot is empty. *)
Definition pendingCount (s : State) : nat :=
  match pendingInvoice s with
  | Some _ => 1%nat
  | None => 0%nat
  end.

(** No character of the string is matched by [\s]. *)
Fixpoint noWhitespace (s : string) : bool :=
  match s with
  | EmptyString => true
  | String c rest => negb (Js.isWhitespace c) && noWhitespace rest
  end.



End Observed.

(** ** The invoice panel, [src/components/invoice-qr.tsx] *)

Module InvoiceQR.

(** [s.padStart(n, c)] for a one-character pad string. *)
Definition padStart (n : nat) (c : ascii) (s : string) : string :=
  string_of_list_ascii (repeat c (n - String.length s)) ++ s.

(** [formatTime(seconds)]: [Math.floor(seconds / 60)], [seconds % 60] (the
    remainder has the sign of [seconds]) and the template
    [`${mins}:${secs.toString().padStart(2, '0')}`]. *)
Definition formatTime (seconds : Z) : string :=
  let mins := seconds / 60 in
  let secs := Z.rem seconds 60 in
  Js.numToString mins ++ ":" ++ padStart 2 "0"%char (Js.numToString secs).

(** The component's state variables. *)
Record State : Type := mkState {
  status : Status;
  isPolling : bool;
  timeRemaining : Z
}.

(** Their initial values. *)
Definition initial : State :=
  {| status := PENDING; isPolling := true; timeRemaining := 3600 |}.

(** The body of the polling callback once [getInvoiceStatus] has settled:
    the new state, and whether [onPaymentSuccess] was called.  An exception
    is caught and logged.  The callback reads no state after its [await]:
    the body runs the same whatever [isPolling] is by then. *)
Definition onPollSettled (o : BackendApi.Outcome InvoiceStatus.t) (st : State)
  : State * bool :=
  match o with
  | BackendApi.Returns result =>
      match InvoiceStatus.status result with
      | PAID =>
          ({| status := PAID; isPolling := false;
              timeRemaining := timeRemaining st |}, true)
      | EXPIRED =>
          ({| status := EXPIRED; isPolling := false;
              timeRemaining := timeRemaining st |}, false)
      | PENDING => (st, false)
      end
  | BackendApi.Throws _ => (st, false)
  end.

(** One period of the countdown: the effect installs no timer once
    [timeRemaining <= 0]; otherwise [Math.max(0, prev - 1)]. *)
Definition onTimer (st : State) : State :=
  if timeRemaining st <=? 0 then st
  else {| status := status st; isPolling := isPolling st;
          timeRemaining := Z.max 0 (timeRemaining st - 1) |}.

(** What the panel reacts to: a poll that was started by the interval
    settles, with its outcome, or a period of the countdown ends. *)
Inductive Event : Type :=
| PollSettled (o : BackendApi.Outcome InvoiceStatus.t)
| TimerFired.

(** The state after a sequence of events and the number of calls of
    [onPaymentSuccess].  Every list of events is allowed: a poll may settle
    after another one has stopped the polling. *)
Fixpoint run (es : list Event) (st : State) : State * nat :=
  match es with
  | [] => (st, 0%nat)
  | PollSettled o :: rest =>
      let (st', called) := onPollSettled o st in
      let (st'', n) := run rest st' in
      (st'', ((if called then 1 else 0) + n)%nat)
  | TimerFired :: rest => run rest (onTimer st)
  end.

(** The poll did not bring PAID or EXPIRED: it threw or it said PENDING. *)
Definition inconclusive (e : Event) : Prop :=
  match e with
  | PollSettled (BackendApi.Returns r) => InvoiceStatus.status r = PENDING
  | PollSettled (BackendApi.Throws _) => True
  | TimerFired => True
  end.

(** The poll brought PAID or EXPIRED, which stops the polling. *)
Definition conclusive (e : Event) : bool :=
  match e with
  | PollSettled (BackendApi.Returns r) =>
      match InvoiceStatus.status r with
      | PENDING => false
      | _ => true
      end
  | _ => false
  end.

(** The event is a period of the countdown. *)
Definition isTimer (e : Event) : Prop :=
  match e with
  | TimerFired => True
  | PollSettled _ => False
  end.

(** No poll settles after one that brought PAID or EXPIRED: the case when
    every poll settles before the next period of the interval starts, so
    that none is in flight when the interval is cleared. *)
Fixpoint stopsAtVerdict (es : list Event) : Prop :=
  match es with
  | [] => True
  | e :: rest =>
      if conclusive e then Forall isTimer rest else stopsAtVerdict rest
  end.

(** How many polls of a sequence of events settled with PAID. *)
Fixpoint paidResults (es : list Event) : nat :=
  match es with
  | [] => 0%nat
  | PollSettled (BackendApi.Returns r) :: rest =>
      match InvoiceStatus.status r with
      | PAID => S (paidResults rest)
      | _ => paidResults rest
      end
  | _ :: rest => paidResults rest
  end.

(** How many countdown periods a sequence of events has. *)
Fixpoint timers (es : list Event) : Z :=
  match es with
  | [] => 0
  | TimerFired :: rest => 1 + timers rest
  | PollSettled _ :: rest => timers rest
  end.

(** The panel polling the in-memory API for the hash [h] at the given clock
    values, one value for each period of the polling interval: the API
    state, the panel state and the number of calls of [onPaymentSuccess].
    The in-memory API answers two seconds into the three seconds of a
    period, so a poll settles before the next period, and a period starts a
    poll only while [isPolling] holds. *)
Fixpoint session (h : string) (ts : list Z) (api : MockApi.State) (st : State)
  : MockApi.State * State * nat :=
  match ts with
  | [] => (api, st, 0%nat)
  | now :: rest =>
      if isPolling st then
        let (r, api') := MockApi.getInvoiceStatus h now api in
        let (st', called) := onPollSettled (BackendApi.Returns r) st in
        let '(api'', st'', n) := session h rest api' st' in
        (api'', st'', ((if called then 1 else 0) + n)%nat)
      else session h rest api st
  end.

(** Reading a time that [formatTime] wrote: the text before the first colon
    and the text after it, as decimal numbers. *)
Fixpoint splitAtColon (s : string) : option (string * string) :=
  match s with
  | EmptyString => None
  | String c rest =>
      if Ascii.eqb c ":"%char then Some (EmptyString, rest)
      else match splitAtColon rest with
           | Some (a, b) => Some (String c a, b)
           | None => None
           end
  end.

Definition readNumber (s : string) : option Z :=
  option_map Z.of_int (NilEmpty.int_of_string s).

Definition readTime (s : string) : option Z :=
  match splitAtColon s with
  | Some (m, sec) =>
      match readNumber m, readNumber sec with
      | Some a, Some b => Some (a * 60 + b)
      | _, _ => None
      end
  | None => None
  end.

End InvoiceQR.

(** ** The page, [src/app/page.tsx] *)

Module Home.

(** The values of [View]: "form", "invoice" and "receipt". *)
Inductive View : Type := FormView | InvoiceView | ReceiptView.

Record CompletedDonation : Type := mkCompleted {
  payment_hash : string;
  amount_sats : Z;
  donor_name : string;
  recipient : option string
}.

(** The page's state variables. *)
Record State : Type := mkState {
  view : View;
  invoice : option Invoice.t;
  completedDonation : option CompletedDonation;
  recentDonations : list Donation.t;
  stats : Stats.t;
  showConfetti : bool;
  isCreatingInvoice : bool
}.

(** Their initial values. *)
Definition initial : State :=
  {| view := FormView;
     invoice := None;
     completedDonation := None;
     recentDonations := [];
     stats := {| Stats.totalSats := Js.Finite 0; Stats.donorCount := 0 |};
     showConfetti := false;
     isCreatingInvoice := false |}.

(** What makes the page set state.  [handleCreateInvoice] sets state when
    it starts and when [createInvoice] settles.  [handlePaymentSuccess]
    reads the [invoice] of the render that made the callback, which the
    event carries. *)
Inductive Event : Type :=
| CreateStarted
| CreateResolved (newInvoice : Invoice.t)
| CreateRejected
| PaymentSuccess (captured : option Invoice.t)
| ConfettiTimeout
| DashboardLoaded (donations : list Donation.t) (donationStats : Stats.t)
| Back
| NewDonation.

Definition handle (e : Event) (st : State) : State :=
  match e with
  | CreateStarted =>
      {| view := view st; invoice := invoice st;
         completedDonation := completedDonation st;
         recentDonations := recentDonations st; stats := stats st;
         showConfetti := showConfetti st; isCreatingInvoice := true |}
  | CreateResolved newInvoice =>
      {| view := InvoiceView; invoice := Some newInvoice;
         completedDonation := completedDonation st;
         recentDonations := recentDonations st; stats := stats st;
         showConfetti := showConfetti st; isCreatingInvoice := false |}
  | CreateRejected =>
      {| view := view st; invoice := invoice st;
         completedDonation := completedDonation st;
         recentDonations := recentDonations st; stats := stats st;
         showConfetti := showConfetti st; isCreatingInvoice := false |}
  | PaymentSuccess None => st
  | PaymentSuccess (Some inv) =>
      {| view := ReceiptView; invoice := invoice st;
         completedDonation :=
           Some {| payment_hash := Invoice.payment_hash inv;
                   amount_sats := Invoice.amount_sats inv;
                   donor_name := Js.orElse (Invoice.donor_name inv) "Anonymous";
                   recipient := Invoice.recipient inv |};
         recentDonations := recentDonations st; stats := stats st;
         showConfetti := true; isCreatingInvoice := isCreatingInvoice st |}
  | ConfettiTimeout =>
      {| view := view st; invoice := invoice st;
         completedDonation := completedDonation st;
         recentDonations := recentDonations st; stats := stats st;
         showConfetti := false; isCreatingInvoice := isCreatingInvoice st |}
  | DashboardLoaded donations donationStats =>
      {| view := view st; invoice := invoice st;
         completedDonation := completedDonation st;
         recentDonations := donations; stats := donationStats;
         showConfetti := showConfetti st;
         isCreatingInvoice := isCreatingInvoice st |}
  | Back | NewDonation =>
      {| view := FormView; invoice := None; completedDonation := None;
         recentDonations := recentDonations st; stats := stats st;
         showConfetti := showConfetti st;
         isCreatingInvoice := isCreatingInvoice st |}
  end.

(** What the left column of the page shows. *)
Inductive Panel : Type :=
| DonateFormPanel (isSubmitting : bool)
| InvoiceQRPanel (inv : Invoice.t)
| ReceiptPanel (props : BackendApi.ReceiptProps)
| NoPanel.

(** The conditional of the page's JSX. *)
Definition render (st : State) : Panel :=
  match view st with
  | FormView => DonateFormPanel (isCreatingInvoice st)
  | InvoiceView =>
      match invoice st with
      | Some inv => InvoiceQRPanel inv
      | None => NoPanel
      end
  | ReceiptView =>
      match completedDonation st with
      | Some c =>
          ReceiptPanel
            (BackendApi.mkProps (payment_hash c) (amount_sats c)
               (donor_name c) (recipient c))
      | None => NoPanel
      end
  end.

(** The states of the page. *)
Inductive reachable : State -> Prop :=
| reachable_initial : reachable initial
| reachable_handle e st : reachable st -> reachable (handle e st).

End Home.

(** ** A donation from the form to the dashboard *)

Module Flow.

(** One donation made on the page against the in-memory API, with nothing
    else going on: the form is submitted and, when its values pass the
    schema, [handleCreateInvoice] creates the invoice at clock value
    [created]; the invoice panel polls at the clock values [ts]; when the
    panel calls [onPaymentSuccess], [handlePaymentSuccess] shows the receipt
    and [fetchDashboardData] loads the recent donations and the statistics.
    The result is the state of the API and of the page. *)
Definition donate (v : DonateForm.Values) (created : Z) (ts : list Z)
    (api : MockApi.State) (page : Home.State) : MockApi.State * Home.State :=
  match DonateForm.handleSubmit v created api with
  | DonateForm.Invalid _ => (api, page)
  | DonateForm.Valid (inv, api1) =>
      let page1 :=
        Home.handle (Home.CreateResolved inv)
          (Home.handle Home.CreateStarted page) in
      let '(api2, _, calls) :=
        InvoiceQR.session (Invoice.payment_hash inv) ts api1 InvoiceQR.initial in
      match calls with
      | O => (api2, page1)
      | S _ =>
          let page2 :=
            Home.handle (Home.PaymentSuccess (Home.invoice page1)) page1 in
          (api2,
           Home.handle
             (Home.DashboardLoaded (MockApi.getRecentDonations api2)
                (MockApi.getDonationStats api2))
             page2)
      end
  end.

End Flow.

(** * Properties *)

Import MockApi.

(** ** Identifiers *)

Lemma numToString_inj (a b : Z) : Js.numToString a = Js.numToString b -> a = b.
Proof.
  unfold Js.numToString. intros E.
  apply (f_equal NilEmpty.int_of_string) in E.
  rewrite !NilEmpty.isi in E.
  injection E as E. now apply DecimalZ.to_int_inj.
Qed.

Lemma mkPaymentHash_inj (t t' : Z) : mkPaymentHash t = mkPaymentHash t' -> t = t'.
Proof.
  unfold mkPaymentHash. cbn [append]. intros E.
  injection E as E. now apply numToString_inj.
Qed.

Lemma createInvoice_hash a n r now s :
  Invoice.payment_hash (fst (createInvoice a n r now s)) = mkPaymentHash now.
Proof. reflexivity. Qed.

(** ** The ledger scan *)




Lemma getDonationStats_count (s : State) :
  Stats.donorCount (getDonationStats s)
  = Z.of_nat (List.length (mockDonations s)).
Proof. reflexivity. Qed.


Lemma reachable_run cs s : reachable s -> reachable (run cs s).
Proof.
  revert s. induction cs as [|[now c] cs IH]; intros s R; cbn [run];
    [exact R|].
  apply IH. now constructor.
Qed.




(** ** The cases of [getInvoiceStatus] *)

Lemma getInvoiceStatus_empty h now s :
  pendingInvoice s = None -> getInvoiceStatus h now s = (pendingReply, s).
Proof. unfold getInvoiceStatus. now intros ->. Qed.

Lemma getInvoiceStatus_other h now s :
  (forall inv, pendingInvoice s = Some inv -> Invoice.payment_hash inv <> h) ->
  getInvoiceStatus h now s = (pendingReply, s).
Proof.
  unfold getInvoiceStatus. intros H.
  destruct (pendingInvoice s) as [inv|]; [|reflexivity].
  destruct (String.eqb_spec h (Invoice.payment_hash inv)) as [E|_];
    [|reflexivity].
  exfalso. now apply (H inv).
Qed.

Lemma getInvoiceStatus_waiting h now s inv :
  pendingInvoice s = Some inv -> Invoice.payment_hash inv = h ->
  pollCount s + 1 < 2 ->
  getInvoiceStatus h now s =
  (pendingReply,
   {| mockDonations := mockDonations s;
      pendingInvoice := Some inv;
      pollCount := pollCount s + 1 |}).
Proof.
  unfold getInvoiceStatus. intros -> <- L.
  rewrite String.eqb_refl. cbn [negb].
  destruct (Z.leb_spec 2 (pollCount s + 1)); [lia|reflexivity].
Qed.

Lemma getInvoiceStatus_paid h now s inv :
  pendingInvoice s = Some inv -> Invoice.payment_hash inv = h ->
  2 <= pollCount s + 1 ->
  getInvoiceStatus h now s =
  (paidReply now,
   {| mockDonations := newDonation (mockDonations s) inv now :: mockDonations s;
      pendingInvoice := None;
      pollCount := 0 |}).
Proof.
  unfold getInvoiceStatus. intros -> <- L.
  rewrite String.eqb_refl. cbn [negb].
  destruct (Z.leb_spec 2 (pollCount s + 1)); [reflexivity|lia].
Qed.

(** A poll never answers EXPIRED. *)
Lemma getInvoiceStatus_not_expired h now s :
  InvoiceStatus.status (fst (getInvoiceStatus h now s)) <> EXPIRED.
Proof.
  unfold getInvoiceStatus.
  destruct (pendingInvoice s) as [inv|]; [|discriminate].
  destruct (negb _); [discriminate|].
  destruct (2 <=? _); discriminate.
Qed.

(** Polling while the slot is empty: every answer is PENDING and the state
    stays as it is. *)
Lemma polls_on_empty_slot h ts s :
  pendingInvoice s = None ->
  Forall (fun e => ev_reply e = RStatus pendingReply /\ ev_post e = s)
         (trace (polls h ts) s).
Proof.
  intros E. induction ts as [|t ts IH]; cbn [polls map trace]; [constructor|].
  cbn [step]. rewrite (getInvoiceStatus_empty h t s E).
  constructor; [split; reflexivity|exact IH].
Qed.

(** ** What one call does to the ledger and to the slot *)

Lemma step_status_post h now s :
  snd (step now (GetInvoiceStatus h) s) = snd (getInvoiceStatus h now s).
Proof. cbn [step]. now destruct (getInvoiceStatus h now s). Qed.

(** A call leaves the ledger as it is or puts one donation, paid now and
    built from the pending invoice, at its front. *)
Lemma step_ledger now c s :
  mockDonations (snd (step now c s)) = mockDonations s
  \/ exists inv,
       pendingInvoice s = Some inv
       /\ mockDonations (snd (step now c s))
          = newDonation (mockDonations s) inv now :: mockDonations s.
Proof.
  destruct c as [a n r|h| |]; try (left; reflexivity).
  rewrite step_status_post. unfold getInvoiceStatus.
  destruct (pendingInvoice s) as [inv|]; [|left; reflexivity].
  destruct (negb _); [left; reflexivity|].
  destruct (2 <=? _); [right|left; reflexivity].
  exists inv. split; reflexivity.
Qed.

Lemma step_keeps_notPending t1 now c s :
  notPending (mkPaymentHash t1) s -> ~ createsAt t1 (now, c) ->
  notPending (mkPaymentHash t1) (snd (step now c s)).
Proof.
  intros N C. destruct c as [a n r|h| |]; try exact N.
  - intros inv E. cbn in E. injection E as <-.
    cbn [Invoice.payment_hash]. intros H. apply C. cbn.
    now apply mkPaymentHash_inj.
  - rewrite step_status_post. unfold getInvoiceStatus.
    destruct (pendingInvoice s) as [inv|] eqn:P; [|exact N].
    destruct (negb _); [exact N|].
    destruct (2 <=? _).
    + intros inv' E. discriminate E.
    + intros inv' E. cbn in E. apply N. congruence.
Qed.

Lemma step_staysPending h now c s :
  notPending h s ->
  staysPending h (mkEvent now c s (fst (step now c s)) (snd (step now c s))).
Proof.
  intros N. split; [exact N|]. cbn [ev_call ev_reply ev_post ev_pre ev_now].
  split.
  - intros ->. cbn [step].
    rewrite (getInvoiceStatus_other h now s N). split; reflexivity.
  - destruct (step_ledger now c s) as [E|(inv & P & E)]; [now left|right].
    exists inv. split; [exact P|]. split; [now apply N|exact E].
Qed.

Lemma trace_staysPending t1 cs s :
  notPending (mkPaymentHash t1) s ->
  Forall (fun tc => ~ createsAt t1 tc) cs ->
  Forall (staysPending (mkPaymentHash t1)) (trace cs s).
Proof.
  revert s. induction cs as [|[now c] cs IH]; intros s N F; cbn [trace];
    [constructor|].
  inversion F as [|tc cs' C F']; subst.
  pose proof (step_staysPending _ now c s N) as Ev.
  pose proof (step_keeps_notPending t1 now c s N C) as N'.
  destruct (step now c s) as [r s']. cbn [fst snd] in *.
  constructor; [exact Ev|now apply IH].
Qed.

(** ** Payment and what follows it *)




(** ** Unknown identifiers *)

(** C2 (amended).  For every payment identifier that is not the hash of the
    pending invoice (so also for one that was never created),
    [getInvoiceStatus] returns PENDING without a [paid_at] and changes
    nothing; the function has no fourth outcome. *)
Theorem unknown_hash_is_pending (h : string) (now : Z) (s : State) :
  (forall inv, pendingInvoice s = Some inv -> Invoice.payment_hash inv <> h) ->
  getInvoiceStatus h now s = (pendingReply, s).
Proof. apply getInvoiceStatus_other. Qed.

Lemma unknown_hash_is_pending_witness :
  getInvoiceStatus "never_created" 5 (snd Scenario.annCreated)
  = (pendingReply, snd Scenario.annCreated).
Proof.
  apply (unknown_hash_is_pending "never_created" 5 (snd Scenario.annCreated)).
  intros inv E. injection E as <-. vm_compute. discriminate.
Defined.

(** C2, as stated, fails: the answer for a hash that was never created is
    not distinct from PENDING. *)
Lemma unknown_hash_counterexample :
  ~ (let st := InvoiceStatus.status
                 (fst (getInvoiceStatus "never_created" 5 init)) in
     st <> PENDING /\ st <> PAID /\ st <> EXPIRED).
Proof. vm_compute. intros (H & _). now apply H. Qed.

(** ** Amounts *)

(** C3 (amended).  [createInvoice] does not check the amount: for every
    amount it returns an invoice of that amount and stores it in the pending
    slot.  The range [1, 1_000_000] is checked by the donation form: its
    submit handler reaches [createInvoice] exactly for the amounts inside
    the range, and for the others it stops with the schema's message. *)
Theorem amount_checked_by_form_only
    (a : Z) (n r : option string) (now : Z) (s : State) :
  Invoice.amount_sats (fst (createInvoice a n r now s)) = a
  /\ pendingInvoice (snd (createInvoice a n r now s))
     = Some (fst (createInvoice a n r now s))
  /\ DonateForm.handleSubmit (DonateForm.mkValues n r (Some a)) now s
     = if (1 <=? a) && (a <=? 1000000)
       then DonateForm.Valid (createInvoice a n r now s)
       else DonateForm.Invalid
              (if a <? 1 then "Donation must be at least 1 sat."
               else "Donation cannot exceed 1,000,000 sats.").
Proof.
  repeat split.
  unfold DonateForm.handleSubmit, DonateForm.formSchema_amount.
  cbn [DonateForm.amount DonateForm.name DonateForm.recipient].
  destruct (Z.ltb_spec a 1) as [L|L].
  - destruct (Z.leb_spec 1 a); [lia|reflexivity].
  - destruct (Z.leb_spec 1 a); [|lia]. cbn [andb].
    destruct (Z.ltb_spec 1000000 a), (Z.leb_spec a 1000000);
      try lia; reflexivity.
Qed.

(** C3, as stated, fails: [createInvoice] stores an invoice for the amounts
    0 and 1_000_001. *)
Lemma createInvoice_out_of_range_counterexample :
  pendingInvoice (snd (createInvoice 0 None None Scenario.t0 init))
  = Some (fst (createInvoice 0 None None Scenario.t0 init))
  /\ Invoice.amount_sats (fst (createInvoice 0 None None Scenario.t0 init)) = 0
  /\ pendingInvoice (snd (createInvoice 1000001 None None Scenario.t0 init))
     = Some (fst (createInvoice 1000001 None None Scenario.t0 init))
  /\ Invoice.amount_sats
       (fst (createInvoice 1000001 None None Scenario.t0 init)) = 1000001.
Proof. repeat split. Qed.

(** ** Expiry *)

(** C4 (amended).  [getInvoiceStatus] has no expiry transition.  A stored,
    not yet polled invoice that is queried strictly after its expiry is
    answered PENDING and stays in the slot, and the next poll promotes it;
    no call ever answers EXPIRED. *)
Theorem no_expiry_transition
    (a : Z) (n r : option string) (created : Z) (s0 : State) (now now' : Z) :
  let inv := fst (createInvoice a n r created s0) in
  let s1 := snd (createInvoice a n r created s0) in
  let h := Invoice.payment_hash inv in
  created + 1000 * Invoice.expires_in inv < now ->
  let s2 := snd (getInvoiceStatus h now s1) in
  fst (getInvoiceStatus h now s1) = pendingReply
  /\ pendingInvoice s2 = Some inv
  /\ fst (getInvoiceStatus h now' s2) = paidReply now'
  /\ (forall h' t s,
        InvoiceStatus.status (fst (getInvoiceStatus h' t s)) <> EXPIRED).
Proof.
  intros inv s1 h _ s2. subst s2.
  assert (E1 : getInvoiceStatus h now s1 =
               (pendingReply,
                {| mockDonations := mockDonations s1;
                   pendingInvoice := Some inv;
                   pollCount := pollCount s1 + 1 |})).
  { apply getInvoiceStatus_waiting; [reflexivity|reflexivity|].
    subst s1. cbn [createInvoice snd pollCount]. lia. }
  rewrite E1. cbn [fst snd pendingInvoice].
  repeat split.
  - erewrite getInvoiceStatus_paid; [reflexivity|reflexivity|reflexivity|].
    subst s1. cbn [createInvoice snd pollCount]. lia.
  - apply getInvoiceStatus_not_expired.
Qed.

Lemma no_expiry_transition_witness :
  Scenario.t0 + 1000 * Invoice.expires_in Scenario.annInvoice
    < Scenario.afterExpiry
  /\ fst (getInvoiceStatus Scenario.annHash Scenario.afterExpiry
            (snd Scenario.annCreated)) = pendingReply.
Proof.
  split; [vm_compute; reflexivity|].
  apply (no_expiry_transition 1000 (Some "Ann") (Some "Shelter") Scenario.t0
           init Scenario.afterExpiry (Scenario.afterExpiry + 3000)).
  vm_compute. reflexivity.
Defined.

(** C4, as stated, fails: one millisecond after the hour the stored invoice
    is answered PENDING and is still in the slot. *)
Lemma expired_invoice_counterexample :
  InvoiceStatus.status
    (fst (getInvoiceStatus Scenario.annHash Scenario.afterExpiry
            (snd Scenario.annCreated))) = PENDING
  /\ pendingInvoice
       (snd (getInvoiceStatus Scenario.annHash Scenario.afterExpiry
               (snd Scenario.annCreated))) = Some Scenario.annInvoice.
Proof. split; vm_compute; reflexivity. Qed.

(** C9.  For every amount in [1, 1_000_000] the invoice that [createInvoice]
    returns expires 3600 seconds after its creation: [expires_in] is 3600. *)
Theorem createInvoice_expires_in_3600
    (a : Z) (n r : option string) (now : Z) (s : State) :
  1 <= a <= 1000000 ->
  Invoice.expires_in (fst (createInvoice a n r now s)) = 3600.
Proof. intros _. reflexivity. Qed.

Lemma createInvoice_expires_in_3600_witness :
  1 <= 1000 <= 1000000 /\ Invoice.expires_in Scenario.annInvoice = 3600.
Proof.
  split; [lia|].
  apply (createInvoice_expires_in_3600 1000 (Some "Ann") (Some "Shelter")
           Scenario.t0 init).
  lia.
Defined.

(** ** Donor names *)

(** The donation that the second poll of a just created invoice puts on the
    ledger. *)
Lemma promotion_of_created a n r created s0 t1 t2 :
  let inv := fst (createInvoice a n r created s0) in
  let h := Invoice.payment_hash inv in
  let s1 := snd (createInvoice a n r created s0) in
  let s2 := snd (getInvoiceStatus h t1 s1) in
  getInvoiceStatus h t2 s2 =
  (paidReply t2,
   {| mockDonations := newDonation (mockDonations s0) inv t2 :: mockDonations s0;
      pendingInvoice := None;
      pollCount := 0 |}).
Proof.
  intros inv h s1 s2.
  assert (E1 : getInvoiceStatus h t1 s1 =
               (pendingReply,
                {| mockDonations := mockDonations s1;
                   pendingInvoice := Some inv;
                   pollCount := pollCount s1 + 1 |})).
  { apply getInvoiceStatus_waiting; [reflexivity|reflexivity|].
    subst s1. cbn [createInvoice snd pollCount]. lia. }
  subst s2. rewrite E1. cbn [snd].
  erewrite getInvoiceStatus_paid; [reflexivity|reflexivity|reflexivity|].
  subst s1. cbn [createInvoice snd pollCount]. lia.
Qed.

(** C8 (amended).  The invoice that [createInvoice] returns carries
    "Anonymous" when the donor name is absent, and the name as it was given
    otherwise, the empty and the blank name included.  The donation promoted
    from the invoice carries "Anonymous" when the name was absent or empty,
    and the name as it was given otherwise, a blank name included. *)
Theorem donor_name_defaults
    (a : Z) (n r : option string) (created : Z) (s0 : State) (t1 t2 : Z) :
  let inv := fst (createInvoice a n r created s0) in
  let h := Invoice.payment_hash inv in
  let s1 := snd (createInvoice a n r created s0) in
  let s3 := snd (getInvoiceStatus h t2 (snd (getInvoiceStatus h t1 s1))) in
  Invoice.donor_name inv
  = Some (match n with None => "Anonymous" | Some v => v end)
  /\ exists d,
       mockDonations s3 = d :: mockDonations s0
       /\ Donation.donor_name d
          = match n with
            | None | Some EmptyString => "Anonymous"
            | Some v => v
            end.
Proof.
  intros inv h s1 s3. split; [reflexivity|].
  subst s3 s1 h inv. rewrite promotion_of_created. cbn [snd mockDonations].
  eexists. split; [reflexivity|].
  cbn [newDonation Donation.donor_name createInvoice fst Invoice.donor_name].
  destruct n as [[|c v]|]; reflexivity.
Qed.

(** C8, as stated, fails: an empty donor name and a blank one stay on the
    returned invoice, and the blank one stays on the donation too. *)
Lemma blank_donor_name_counterexample :
  Invoice.donor_name (fst Scenario.emptyNameCreated) = Some ""
  /\ Invoice.donor_name (fst Scenario.blankNameCreated) = Some "   "
  /\ map Donation.donor_name
         (mockDonations (Scenario.promoted Scenario.blankNameCreated))
     = ["   "].
Proof. repeat split. Qed.

(** ** A backend that does not answer *)

(** C6 (amended).  When the backend call fails, [getInvoiceStatus] and
    [getDonationReceipt] throw, an outcome that is neither PENDING nor PAID;
    [confirmPayment] returns PAID with [paid_at] read from the local clock;
    and the receipt component sets the receipt it builds itself from its
    properties and the local clock. *)
Theorem failed_backend_call
    (rs : BackendApi.Fetch InvoiceStatus.t)
    (rr : BackendApi.Fetch BackendApi.DonationReceipt)
    (p : BackendApi.ReceiptProps) (now : Z) :
  BackendApi.failed rs = true ->
  BackendApi.failed rr = true ->
  (exists e, BackendApi.getInvoiceStatus rs = BackendApi.Throws e)
  /\ (exists e, BackendApi.getDonationReceipt rr = BackendApi.Throws e)
  /\ BackendApi.confirmPayment rs now
     = {| InvoiceStatus.status := PAID; InvoiceStatus.paid_at := Some now |}
  /\ BackendApi.fetchReceipt p rr now = BackendApi.fallbackReceipt p now.
Proof.
  intros Fs Fr. unfold BackendApi.fetchReceipt.
  destruct rs as [|[|] [ds|]]; try discriminate Fs;
    destruct rr as [|[|] [dr|]]; try discriminate Fr;
    cbn; repeat split; eexists; reflexivity.
Qed.

Lemma failed_backend_call_witness :
  BackendApi.failed (A := InvoiceStatus.t) BackendApi.Rejected = true
  /\ BackendApi.confirmPayment BackendApi.Rejected Scenario.t0
     = paidReply Scenario.t0.
Proof.
  split; [reflexivity|].
  apply (failed_backend_call BackendApi.Rejected (BackendApi.Response false None)
           (BackendApi.mkProps Scenario.annHash 1000 "Ann" (Some "Shelter"))
           Scenario.t0); reflexivity.
Defined.

(** C6, as stated, fails: with the backend out of reach [confirmPayment]
    answers PAID at the local clock value, and the receipt component shows a
    receipt with a transaction identifier of its own making. *)
Lemma failed_confirmation_counterexample :
  BackendApi.confirmPayment BackendApi.Rejected Scenario.t0
  = {| InvoiceStatus.status := PAID; InvoiceStatus.paid_at := Some Scenario.t0 |}
  /\ BackendApi.transaction_id
       (BackendApi.fetchReceipt
          (BackendApi.mkProps Scenario.annHash 1000 "Ann" (Some "Shelter"))
          BackendApi.Rejected Scenario.t0)
     = "lntx1mock_payw1000".
Proof. split; vm_compute; reflexivity. Qed.

(** ** The order of the ledger *)

Lemma ledgerOrdered_later t t' ds :
  t <= t' -> ledgerOrdered t ds -> ledgerOrdered t' ds.
Proof.
  intros L (B & O & I). split; [|split; assumption].
  intros d Hd. specialize (B d Hd). lia.
Qed.

Lemma ledgerOrdered_cons t ds inv :
  ledgerOrdered t ds -> ledgerOrdered t (newDonation ds inv t :: ds).
Proof.
  intros (B & O & I). split; [|split].
  - intros d [<-|Hd]; [cbn; lia|now apply B].
  - cbn [newestFirst]. split; [|exact O].
    intros d' Hd'. cbn [newDonation Donation.paid_at]. now apply B.
  - intros [|i] d; cbn [nth_error List.length].
    + intros E. injection E as <-. cbn [newDonation Donation.id].
      f_equal. lia.
    + intros E. rewrite (I i d E). reflexivity.
Qed.

Lemma reachable_at_ordered t s :
  reachable_at t s -> ledgerOrdered t (mockDonations s).
Proof.
  induction 1 as [t|t now c s R IH L].
  - split; [|split]; cbn.
    + intros d [].
    + exact I.
    + intros [|i] d E; discriminate E.
  - apply (ledgerOrdered_later t now _ L) in IH.
    destruct (step_ledger now c s) as [->|(inv & _ & ->)];
      [exact IH|now apply ledgerOrdered_cons].
Qed.

Lemma In_firstn {A : Type} n (l : list A) x : In x (firstn n l) -> In x l.
Proof.
  revert n. induction l as [|a l IH]; intros [|n]; cbn; try tauto.
  intros [E|H]; [now left|right; now apply (IH n)].
Qed.

Lemma newestFirst_firstn n ds : newestFirst ds -> newestFirst (firstn n ds).
Proof.
  revert n. induction ds as [|d ds IH]; intros [|n]; cbn; try tauto.
  intros (H & O). split; [|now apply IH].
  intros d' Hd'. apply H. now apply (In_firstn n).
Qed.

Lemma nth_error_firstn_Some {A : Type} n (l : list A) i x :
  nth_error (firstn n l) i = Some x -> nth_error l i = Some x.
Proof.
  revert n i. induction l as [|a l IH]; intros [|n] [|i]; cbn;
    try discriminate; try tauto.
  apply IH.
Qed.

Lemma reachable_at_run t s cs :
  reachable_at t s -> clockOk t cs = true ->
  reachable_at (lastClock t cs) (run cs s).
Proof.
  revert t s. induction cs as [|[now c] cs IH]; intros t s R C; cbn in *.
  - exact R.
  - apply andb_true_iff in C as (C1 & C2). apply Z.leb_le in C1.
    apply IH; [|exact C2]. now apply (reachable_at_step t).
Qed.

(** C7 (amended).  [getRecentDonations] has no limit parameter: in every
    state reached under a clock that never goes back it returns the first
    five entries of the ledger (all of them when there are fewer), which are
    the donations promoted last, the most recent first, with [paid_at] never
    increasing along the sequence. *)
Theorem recent_donations_newest_five (t : Z) (s : State) :
  reachable_at t s ->
  let r := getRecentDonations s in
  r = firstn 5 (mockDonations s)
  /\ List.length r = Nat.min 5 (List.length (mockDonations s))
  /\ newestFirst r
  /\ (forall i d, nth_error r i = Some d ->
        Donation.id d
        = Js.numToString (Z.of_nat (List.length (mockDonations s) - i))).
Proof.
  intros R r. subst r. unfold getRecentDonations.
  destruct (reachable_at_ordered t s R) as (_ & O & I).
  split; [reflexivity|]. split; [apply length_firstn|].
  split; [now apply newestFirst_firstn|].
  intros i d E. apply I. now apply nth_error_firstn_Some with (n := 5%nat).
Qed.

Lemma recent_donations_newest_five_witness :
  map Donation.id (getRecentDonations Scenario.afterFive)
  = map Donation.id (firstn 5 (mockDonations Scenario.afterFive))
  /\ newestFirst (getRecentDonations Scenario.afterFive).
Proof.
  destruct (recent_donations_newest_five
              (lastClock Scenario.t0 Scenario.fivePayments) Scenario.afterFive)
    as (E & _ & O & _).
  - apply reachable_at_run; [constructor|vm_compute; reflexivity].
  - split; [now rewrite E|exact O].
Defined.

(** C7, as stated, fails: after five successful payments the call returns
    all five donations, not three. *)
Lemma recent_donations_limit_counterexample :
  map Donation.id (getRecentDonations Scenario.afterFive)
  = ["5"; "4"; "3"; "2"; "1"]
  /\ ~ (List.length (getRecentDonations Scenario.afterFive) <= 3)%nat.
Proof.
  split; [vm_compute; reflexivity|].
  vm_compute. lia.
Qed.

(** ** The single pending slot *)

(** C10 (amended).  [createInvoice] overwrites the one pending slot.  Let
    a first invoice be in the slot when a second one is created at another
    clock value, so with another hash.  Then, as long as no later invoice is
    created at the first one's clock value, every poll of the first
    invoice's hash is answered PENDING and changes nothing, the slot never
    holds that hash again, and every donation put on the ledger is built
    from an invoice of another hash: the first invoice is never promoted. *)
Theorem overwritten_invoice_stays_pending
    (a1 : Z) (n1 r1 : option string) (t1 : Z) (s0 s1 : State)
    (a2 : Z) (n2 r2 : option string) (t2 : Z) (cs : list (Z * Call)) :
  let inv1 := fst (createInvoice a1 n1 r1 t1 s0) in
  let s2 := snd (createInvoice a2 n2 r2 t2 s1) in
  pendingInvoice s1 = Some inv1 ->
  t2 <> t1 ->
  Forall (fun tc => ~ createsAt t1 tc) cs ->
  pendingInvoice s2 = Some (fst (createInvoice a2 n2 r2 t2 s1))
  /\ Forall (staysPending (Invoice.payment_hash inv1)) (trace cs s2).
Proof.
  intros inv1 s2 _ D F. split; [reflexivity|].
  subst inv1. rewrite createInvoice_hash.
  apply trace_staysPending; [|exact F].
  intros inv E. subst s2. cbn in E. injection E as <-.
  cbn [Invoice.payment_hash]. intros H. apply D.
  now apply mkPaymentHash_inj.
Qed.

Lemma overwritten_invoice_stays_pending_witness :
  Scenario.t0 + 1 <> Scenario.t0
  /\ Forall (staysPending Scenario.annHash)
       (trace (polls Scenario.annHash [Scenario.t0 + 3000; Scenario.t0 + 6000])
          (snd (createInvoice 2000 (Some "Bob") None (Scenario.t0 + 1)
                  (snd Scenario.annCreated)))).
Proof.
  split; [vm_compute; discriminate|].
  apply (overwritten_invoice_stays_pending 1000 (Some "Ann") (Some "Shelter")
           Scenario.t0 init (snd Scenario.annCreated)
           2000 (Some "Bob") None (Scenario.t0 + 1)).
  - reflexivity.
  - vm_compute. discriminate.
  - repeat constructor; cbn; tauto.
Defined.

(** C10, as stated, fails: a second invoice created at the clock value of
    the first has the first one's hash, and the second poll of that hash is
    answered PAID, with the second invoice's amount on the ledger. *)
Lemma same_clock_invoice_counterexample :
  Invoice.payment_hash (fst Scenario.bobCreated) = Scenario.annHash
  /\ InvoiceStatus.status
       (fst (getInvoiceStatus Scenario.annHash (Scenario.t0 + 6000)
               (snd (getInvoiceStatus Scenario.annHash (Scenario.t0 + 3000)
                       (snd Scenario.bobCreated))))) = PAID
  /\ map Donation.amount_sats
         (mockDonations (Scenario.promoted Scenario.bobCreated)) = [2000].
Proof. repeat split. Qed.

(** * Further properties of the in-memory API *)

Import Observed.

(** ** The poll counter *)

Lemma reachable_pollCount s :
  reachable s ->
  pollCount s = 0 \/ (pollCount s = 1 /\ pendingInvoice s <> None).
Proof.
  induction 1 as [|now c s R IH]; [now left|].
  destruct c as [a n r|h| |]; try exact IH.
  - now left.
  - rewrite step_status_post. unfold getInvoiceStatus.
    destruct (pendingInvoice s) as [inv|] eqn:P;
      [|cbn [snd]; rewrite P; exact IH].
    destruct (negb _); [cbn [snd]; rewrite P; exact IH|].
    destruct (Z.leb_spec 2 (pollCount s + 1)) as [L|L]; [now left|].
    right. cbn [snd pollCount pendingInvoice]. split; [|discriminate].
    destruct IH as [IH|(IH & _)]; lia.
Qed.

(** X1.  In every reachable state the pending invoice is promoted by the
    second poll of its hash at the latest: two polls in a row give PENDING
    and then PAID when it was not polled before, PAID and then PENDING when
    it was polled once, and in both cases exactly one donation, built from
    that invoice, is put on the ledger. *)
Theorem pending_invoice_paid_within_two_polls
    (s : State) (inv : Invoice.t) (t1 t2 : Z) :
  reachable s ->
  pendingInvoice s = Some inv ->
  let h := Invoice.payment_hash inv in
  let p1 := getInvoiceStatus h t1 s in
  let p2 := getInvoiceStatus h t2 (snd p1) in
  (pollCount s = 0 /\ fst p1 = pendingReply /\ fst p2 = paidReply t2
   /\ mockDonations (snd p2)
      = newDonation (mockDonations s) inv t2 :: mockDonations s)
  \/ (pollCount s = 1 /\ fst p1 = paidReply t1 /\ fst p2 = pendingReply
      /\ mockDonations (snd p2)
         = newDonation (mockDonations s) inv t1 :: mockDonations s).
Proof.
  intros R P h p1 p2. subst p2 p1.
  destruct (reachable_pollCount s R) as [Z0|(Z1 & _)].
  - left. split; [exact Z0|].
    rewrite (getInvoiceStatus_waiting h t1 s inv P eq_refl) by lia.
    cbn [fst snd].
    erewrite getInvoiceStatus_paid;
      [|reflexivity|reflexivity|cbn [pollCount]; lia].
    repeat split.
  - right. split; [exact Z1|].
    rewrite (getInvoiceStatus_paid h t1 s inv P eq_refl) by lia.
    cbn [fst snd].
    rewrite getInvoiceStatus_empty by reflexivity.
    repeat split.
Qed.

Lemma pending_invoice_paid_within_two_polls_witness :
  reachable Scenario.annPolledOnce
  /\ fst (getInvoiceStatus Scenario.annHash 7 Scenario.annPolledOnce)
     = paidReply 7.
Proof.
  assert (R : reachable Scenario.annPolledOnce).
  { unfold Scenario.annPolledOnce. rewrite <- step_status_post.
    apply reachable_step.
    apply (reachable_step Scenario.t0
             (CreateInvoice 1000 (Some "Ann") (Some "Shelter")) init).
    constructor. }
  split; [exact R|].
  destruct (pending_invoice_paid_within_two_polls Scenario.annPolledOnce
              Scenario.annInvoice 7 8 R eq_refl) as [(Z0 & _)|(_ & E & _)].
  - discriminate Z0.
  - exact E.
Defined.

(** ** Answers and donations *)

Lemma step_paid_ledger now c s :
  if isPaid (fst (step now c s))
  then exists inv,
         mockDonations (snd (step now c s))
         = newDonation (mockDonations s) inv now :: mockDonations s
  else mockDonations (snd (step now c s)) = mockDonations s.
Proof.
  destruct c as [a n r|h| |]; try reflexivity.
  cbn [step]. unfold getInvoiceStatus.
  destruct (pendingInvoice s) as [inv|]; [|reflexivity].
  destruct (negb _); [reflexivity|].
  destruct (2 <=? _); [|reflexivity].
  cbn. now exists inv.
Qed.

Lemma trace_cons now c rest s :
  trace ((now, c) :: rest) s
  = mkEvent now c s (fst (step now c s)) (snd (step now c s))
      :: trace rest (snd (step now c s)).
Proof. cbn [trace]. now destruct (step now c s). Qed.

(** X2.  The ledger only grows at its front, by one donation for each call
    answered PAID: after any sequence of calls the old ledger is still
    there, unchanged, behind as many new donations as there were PAID
    answers, and [donorCount] has grown by that number. *)
Theorem ledger_grows_by_paid_replies (cs : list (Z * Call)) (s : State) :
  exists added,
    mockDonations (run cs s) = (added ++ mockDonations s)%list
    /\ List.length added = paidReplies (trace cs s)
    /\ Stats.donorCount (getDonationStats (run cs s))
       = Stats.donorCount (getDonationStats s)
         + Z.of_nat (paidReplies (trace cs s)).
Proof.
  assert (G : exists added,
             mockDonations (run cs s) = (added ++ mockDonations s)%list
             /\ List.length added = paidReplies (trace cs s)).
  { revert s. induction cs as [|[now c] cs IH]; intros s.
    - exists []. split; reflexivity.
    - rewrite trace_cons. cbn [run].
      destruct (IH (snd (step now c s))) as (added & E & L).
      pose proof (step_paid_ledger now c s) as P.
      unfold paidReplies in *. cbn [filter ev_reply].
      destruct (isPaid (fst (step now c s))).
      + destruct P as (inv & P). rewrite P in E.
        exists (added ++ [newDonation (mockDonations s) inv now])%list.
        split; [now rewrite <- app_assoc|].
        rewrite length_app. cbn [List.length]. lia.
      + rewrite P in E. exists added. now split. }
  destruct G as (added & E & L). exists added.
  split; [exact E|]. split; [exact L|].
  rewrite !getDonationStats_count.
  rewrite E, length_app. lia.
Qed.

(** ** Numbers and names of the donations *)

Lemma numbered_cons ds inv t :
  numbered ds -> numbered (newDonation ds inv t :: ds).
Proof.
  intros N [|i] d; cbn [nth_error List.length].
  - intros E. injection E as <-. cbn [newDonation Donation.id]. f_equal. lia.
  - intros E. now rewrite (N i d E).
Qed.

Lemma reachable_numbered s : reachable s -> numbered (mockDonations s).
Proof.
  induction 1 as [|now c s R IH].
  - intros [|i] d E; discriminate E.
  - destruct (step_ledger now c s) as [->|(inv & _ & ->)];
      [exact IH|now apply numbered_cons].
Qed.

(** X3.  In every reachable state the donations of the ledger have pairwise
    different [id]s. *)
Theorem ledger_ids_distinct (s : State) :
  reachable s -> NoDup (map Donation.id (mockDonations s)).
Proof.
  intros R. pose proof (reachable_numbered s R) as N.
  set (ds := mockDonations s) in *.
  apply NoDup_nth_error. intros i j Hi E.
  rewrite length_map in Hi. rewrite !nth_error_map in E.
  destruct (nth_error ds i) as [d|] eqn:Ei;
    [|apply nth_error_None in Ei; lia].
  destruct (nth_error ds j) as [d'|] eqn:Ej; [|discriminate E].
  cbn in E. injection E as E.
  rewrite (N i d Ei), (N j d' Ej) in E. apply numToString_inj in E.
  assert (j < List.length ds)%nat by (apply nth_error_Some; congruence).
  lia.
Qed.

Lemma ledger_ids_distinct_witness :
  reachable Scenario.afterFive
  /\ NoDup (map Donation.id (mockDonations Scenario.afterFive)).
Proof.
  assert (R : reachable Scenario.afterFive)
    by (apply reachable_run; constructor).
  split; [exact R|exact (ledger_ids_distinct Scenario.afterFive R)].
Defined.

Lemma orElse_nonempty x : Js.orElse x "Anonymous" <> "".
Proof. destruct x as [[|c v]|]; discriminate. Qed.

(** X4.  In every reachable state every donation of the ledger has a donor
    name that is not empty and the status PAID. *)
Theorem ledger_entries_named_and_paid (s : State) :
  reachable s ->
  Forall (fun d => Donation.donor_name d <> "" /\ Donation.status d = PAID)
         (mockDonations s).
Proof.
  induction 1 as [|now c s R IH]; [constructor|].
  destruct (step_ledger now c s) as [->|(inv & _ & ->)]; [exact IH|].
  constructor; [|exact IH].
  split; [apply orElse_nonempty|reflexivity].
Qed.

Lemma ledger_entries_named_and_paid_witness :
  reachable (Scenario.promoted Scenario.emptyNameCreated)
  /\ Forall (fun d => Donation.donor_name d <> "" /\ Donation.status d = PAID)
       (mockDonations (Scenario.promoted Scenario.emptyNameCreated)).
Proof.
  assert (R : reachable (Scenario.promoted Scenario.emptyNameCreated)).
  { unfold Scenario.promoted. rewrite <- !step_status_post.
    do 2 apply reachable_step.
    apply (reachable_step Scenario.t0 (CreateInvoice 1000 (Some "") None) init).
    constructor. }
  split; [exact R|].
  exact (ledger_entries_named_and_paid _ R).
Defined.

(** ** From an invoice to its donation *)

(** X5.  Whatever the state was (a half polled invoice in the slot
    included), a new invoice is answered PENDING at its first poll, which
    leaves the ledger alone, and PAID at its second, which puts at the front
    of the ledger a donation with the invoice's amount and recipient, the
    clock value of that poll as [paid_at] and the next free number as [id],
    and empties the slot. *)
Theorem new_invoice_promoted_at_second_poll
    (a : Z) (n r : option string) (created : Z) (s0 : State) (t1 t2 : Z) :
  let c := createInvoice a n r created s0 in
  let h := Invoice.payment_hash (fst c) in
  let p1 := getInvoiceStatus h t1 (snd c) in
  let p2 := getInvoiceStatus h t2 (snd p1) in
  fst p1 = pendingReply
  /\ mockDonations (snd p1) = mockDonations s0
  /\ fst p2 = paidReply t2
  /\ pendingInvoice (snd p2) = None
  /\ exists d,
       mockDonations (snd p2) = d :: mockDonations s0
       /\ Donation.amount_sats d = a
       /\ Donation.recipient d = r
       /\ Donation.paid_at d = t2
       /\ Donation.id d
          = Js.numToString (Z.of_nat (List.length (mockDonations s0)) + 1).
Proof.
  intros c h p1 p2.
  assert (E1 : p1 = (pendingReply,
                     {| mockDonations := mockDonations s0;
                        pendingInvoice := Some (fst c);
                        pollCount := 1 |})).
  { subst p1. erewrite getInvoiceStatus_waiting;
      [reflexivity|reflexivity|reflexivity|cbn; lia]. }
  assert (E2 : p2 = (paidReply t2,
                     {| mockDonations :=
                          newDonation (mockDonations s0) (fst c) t2
                            :: mockDonations s0;
                        pendingInvoice := None;
                        pollCount := 0 |})).
  { subst p2. rewrite E1. cbn [snd].
    erewrite getInvoiceStatus_paid;
      [reflexivity|reflexivity|reflexivity|cbn; lia]. }
  rewrite E1, E2. cbn [fst snd mockDonations pendingInvoice].
  repeat split. eexists. repeat split.
Qed.

(** X6.  Two invoices have the same payment hash exactly when they were
    created at the same clock value, whatever their amounts, names and
    recipients. *)
Theorem payment_hash_determined_by_clock
    (a a' : Z) (n n' r r' : option string) (t t' : Z) (s s' : State) :
  Invoice.payment_hash (fst (createInvoice a n r t s))
  = Invoice.payment_hash (fst (createInvoice a' n' r' t' s'))
  <-> t = t'.
Proof.
  rewrite !createInvoice_hash. split; [apply mkPaymentHash_inj|now intros ->].
Qed.

(** ** The invoice string *)

Lemma noWhitespace_append a b :
  noWhitespace (a ++ b) = noWhitespace a && noWhitespace b.
Proof.
  induction a as [|c a IH]; cbn [append noWhitespace]; [reflexivity|].
  now rewrite IH, andb_assoc.
Qed.

Lemma noWhitespace_replaceWhitespace s :
  noWhitespace (Js.replaceWhitespace s) = true.
Proof.
  induction s as [|c s IH]; cbn [Js.replaceWhitespace noWhitespace];
    [reflexivity|].
  rewrite IH, andb_true_r.
  destruct (Js.isWhitespace c) eqn:W; [reflexivity|now rewrite W].
Qed.

Lemma noWhitespace_string_of_uint d :
  noWhitespace (NilEmpty.string_of_uint d) = true.
Proof.
  induction d; cbn [NilEmpty.string_of_uint noWhitespace];
    rewrite ?IHd; reflexivity.
Qed.

Lemma noWhitespace_numToString z : noWhitespace (Js.numToString z) = true.
Proof.
  unfold Js.numToString, NilEmpty.string_of_int.
  destruct (Z.to_int z); cbn [noWhitespace];
    rewrite noWhitespace_string_of_uint; reflexivity.
Qed.

(** X7.  The invoice string that [createInvoice] returns never contains a
    whitespace character, whatever the donor name is. *)
Theorem invoice_string_without_whitespace
    (a : Z) (n r : option string) (now : Z) (s : State) :
  noWhitespace (Invoice.invoice (fst (createInvoice a n r now s))) = true.
Proof.
  cbn [createInvoice fst Invoice.invoice].
  unfold mkInvoiceString, mkPaymentHash.
  rewrite !noWhitespace_append, !noWhitespace_numToString,
    noWhitespace_replaceWhitespace.
  reflexivity.
Qed.

(** ** Donations that come through the form *)







(** * Further properties of the HTTP client API *)

(** X9.  An answer of [confirmPayment] other than PAID is the backend's own
    answer: the call did not fail, and [getInvoiceStatus] returns the same
    record for the same response. *)
Theorem confirmPayment_other_than_paid_is_backend
    (r : BackendApi.Fetch InvoiceStatus.t) (now : Z) :
  InvoiceStatus.status (BackendApi.confirmPayment r now) <> PAID ->
  BackendApi.failed r = false
  /\ BackendApi.getInvoiceStatus r
     = BackendApi.Returns (BackendApi.confirmPayment r now).
Proof.
  destruct r as [|[|] [d|]]; cbn; intros H;
    try (exfalso; now apply H).
  split; reflexivity.
Qed.

Lemma confirmPayment_other_than_paid_is_backend_witness :
  BackendApi.getInvoiceStatus (BackendApi.Response true (Some pendingReply))
  = BackendApi.Returns
      (BackendApi.confirmPayment (BackendApi.Response true (Some pendingReply))
         Scenario.t0).
Proof.
  apply (confirmPayment_other_than_paid_is_backend
           (BackendApi.Response true (Some pendingReply)) Scenario.t0).
  cbn. discriminate.
Defined.

(** * Properties of the invoice panel *)

Lemma panel_timers_only es st :
  Forall InvoiceQR.isTimer es ->
  InvoiceQR.status (fst (InvoiceQR.run es st)) = InvoiceQR.status st
  /\ InvoiceQR.isPolling (fst (InvoiceQR.run es st)) = InvoiceQR.isPolling st
  /\ snd (InvoiceQR.run es st) = 0%nat.
Proof.
  intros F. revert st.
  induction F as [|e es T F IH]; intros st; [now repeat split|].
  destruct e as [o|]; [destruct T|]. cbn [InvoiceQR.run].
  destruct (IH (InvoiceQR.onTimer st)) as (S1 & S2 & S3).
  rewrite S1, S2, S3. unfold InvoiceQR.onTimer.
  destruct (_ <=? 0); now repeat split.
Qed.

Lemma panel_never_pending_again es st :
  InvoiceQR.status st <> PENDING -> InvoiceQR.isPolling st = false ->
  InvoiceQR.status (fst (InvoiceQR.run es st)) <> PENDING
  /\ InvoiceQR.isPolling (fst (InvoiceQR.run es st)) = false.
Proof.
  revert st. induction es as [|[o|] es IH]; intros st S P;
    cbn [InvoiceQR.run].
  - now split.
  - unfold InvoiceQR.onPollSettled.
    destruct o as [r|err]; [destruct (InvoiceStatus.status r)|];
      match goal with
      | |- context [InvoiceQR.run es ?x] =>
          let H := fresh in
          assert (H : InvoiceQR.status x <> PENDING
                      /\ InvoiceQR.isPolling x = false)
            by (split; [try exact S; discriminate|try exact P; reflexivity]);
          destruct (IH x (proj1 H) (proj2 H)) as (S' & P');
          destruct (InvoiceQR.run es x) as [st' n]
      end; now split.
  - apply IH; unfold InvoiceQR.onTimer; now destruct (_ <=? 0).
Qed.

Lemma panel_run_count es st :
  snd (InvoiceQR.run es st) = InvoiceQR.paidResults es.
Proof.
  revert st. induction es as [|[o|] es IH]; intros st;
    cbn [InvoiceQR.run InvoiceQR.paidResults]; [reflexivity| |apply IH].
  unfold InvoiceQR.onPollSettled.
  destruct o as [r|err]; [destruct (InvoiceStatus.status r)|];
    match goal with
    | |- context [InvoiceQR.run es ?x] =>
        specialize (IH x); destruct (InvoiceQR.run es x) as [st' n]
    end; cbn [snd] in *; subst n; reflexivity.
Qed.

(** X10.  As long as every poll throws or says PENDING, the panel stays
    PENDING and keeps polling, [onPaymentSuccess] is not called, and the
    countdown shows 3600 less the number of its periods, never less than 0:
    a failing backend and a countdown at zero both leave the panel
    waiting. *)
Theorem inconclusive_polls_keep_waiting (es : list InvoiceQR.Event) :
  Forall InvoiceQR.inconclusive es ->
  InvoiceQR.run es InvoiceQR.initial
  = ({| InvoiceQR.status := PENDING;
        InvoiceQR.isPolling := true;
        InvoiceQR.timeRemaining := Z.max 0 (3600 - InvoiceQR.timers es) |},
     0%nat).
Proof.
  unfold InvoiceQR.initial.
  assert (T : 0 <= 3600) by lia. revert T. generalize 3600 as T.
  induction es as [|e es IH]; intros T T0 F.
  - cbn. f_equal. f_equal. lia.
  - inversion F as [|e' es' I F']; subst.
    destruct e as [[r|err]|]; cbn [InvoiceQR.run InvoiceQR.timers].
    + cbn in I. unfold InvoiceQR.onPollSettled.
      rewrite I. now rewrite (IH T T0 F').
    + unfold InvoiceQR.onPollSettled. now rewrite (IH T T0 F').
    + unfold InvoiceQR.onTimer. cbn [InvoiceQR.timeRemaining
        InvoiceQR.status InvoiceQR.isPolling].
      destruct (Z.leb_spec T 0) as [L|L].
      * rewrite (IH T T0 F'). f_equal. f_equal.
        assert (0 <= InvoiceQR.timers es)
          by (clear; induction es as [|[o|] es IH'];
              cbn [InvoiceQR.timers]; lia).
        lia.
      * rewrite (IH (Z.max 0 (T - 1))) by (assumption || lia).
        f_equal. f_equal. lia.
Qed.

Lemma inconclusive_polls_keep_waiting_witness :
  InvoiceQR.status
    (fst (InvoiceQR.run
            [InvoiceQR.PollSettled (BackendApi.Throws BackendApi.FetchRejected);
             InvoiceQR.TimerFired;
             InvoiceQR.PollSettled (BackendApi.Returns pendingReply)]
            InvoiceQR.initial)) = PENDING.
Proof.
  rewrite (inconclusive_polls_keep_waiting
             [InvoiceQR.PollSettled (BackendApi.Throws BackendApi.FetchRejected);
              InvoiceQR.TimerFired;
              InvoiceQR.PollSettled (BackendApi.Returns pendingReply)]).
  - reflexivity.
  - repeat constructor.
Defined.

Lemma panel_run_verdict es st :
  InvoiceQR.isPolling st = true -> InvoiceQR.status st = PENDING ->
  InvoiceQR.stopsAtVerdict es ->
  let res := InvoiceQR.run es st in
  (snd res = 1%nat /\ InvoiceQR.status (fst res) = PAID
   /\ InvoiceQR.isPolling (fst res) = false)
  \/ (snd res = 0%nat /\ InvoiceQR.status (fst res) = EXPIRED
      /\ InvoiceQR.isPolling (fst res) = false)
  \/ (snd res = 0%nat /\ InvoiceQR.status (fst res) = PENDING
      /\ InvoiceQR.isPolling (fst res) = true).
Proof.
  revert st. induction es as [|[o|] es IH]; intros st P S V; cbn zeta.
  - right. right. now repeat split.
  - cbn [InvoiceQR.run]. unfold InvoiceQR.onPollSettled.
    cbn [InvoiceQR.stopsAtVerdict InvoiceQR.conclusive] in V.
    destruct o as [r|err]; [destruct (InvoiceStatus.status r) eqn:Sr|].
    + specialize (IH st P S V). cbn zeta in IH.
      destruct (InvoiceQR.run es st) as [st' n]. exact IH.
    + match goal with
      | |- context [InvoiceQR.run es ?x] =>
          destruct (panel_timers_only es x V) as (S1 & S2 & S3);
          destruct (InvoiceQR.run es x) as [st' n]
      end.
      cbn [fst snd] in *. subst n. left. now repeat split.
    + match goal with
      | |- context [InvoiceQR.run es ?x] =>
          destruct (panel_timers_only es x V) as (S1 & S2 & S3);
          destruct (InvoiceQR.run es x) as [st' n]
      end.
      cbn [fst snd] in *. subst n. right. left. now repeat split.
    + specialize (IH st P S V). cbn zeta in IH.
      destruct (InvoiceQR.run es st) as [st' n]. exact IH.
  - cbn [InvoiceQR.run]. apply IH; [| |exact V]; unfold InvoiceQR.onTimer;
      now destruct (_ <=? 0).
Qed.

(** X11.  The panel calls [onPaymentSuccess] once for every poll that
    settles with PAID.  When no poll settles after one that brought PAID or
    EXPIRED, as when every poll settles before the next period of the
    interval starts, that is at most once: exactly once when the panel ends
    PAID, and not at all when it ends EXPIRED or is still PENDING; and the
    panel keeps polling exactly while it is PENDING. *)
Theorem payment_success_called_once_when_paid (es : list InvoiceQR.Event) :
  let res := InvoiceQR.run es InvoiceQR.initial in
  snd res = InvoiceQR.paidResults es
  /\ (InvoiceQR.stopsAtVerdict es ->
      (snd res = 1%nat /\ InvoiceQR.status (fst res) = PAID
       /\ InvoiceQR.isPolling (fst res) = false)
      \/ (snd res = 0%nat /\ InvoiceQR.status (fst res) = EXPIRED
          /\ InvoiceQR.isPolling (fst res) = false)
      \/ (snd res = 0%nat /\ InvoiceQR.status (fst res) = PENDING
          /\ InvoiceQR.isPolling (fst res) = true)).
Proof.
  intros res. subst res. split; [apply panel_run_count|]. intros V.
  assert (P : InvoiceQR.isPolling InvoiceQR.initial = true) by reflexivity.
  assert (S : InvoiceQR.status InvoiceQR.initial = PENDING) by reflexivity.
  exact (panel_run_verdict es InvoiceQR.initial P S V).
Qed.

Lemma payment_success_called_once_when_paid_witness :
  InvoiceQR.stopsAtVerdict
    [InvoiceQR.PollSettled (BackendApi.Throws BackendApi.FetchRejected);
     InvoiceQR.PollSettled (BackendApi.Returns pendingReply);
     InvoiceQR.TimerFired;
     InvoiceQR.PollSettled (BackendApi.Returns (paidReply 5));
     InvoiceQR.TimerFired]
  /\ snd (InvoiceQR.run
            [InvoiceQR.PollSettled (BackendApi.Throws BackendApi.FetchRejected);
             InvoiceQR.PollSettled (BackendApi.Returns pendingReply);
             InvoiceQR.TimerFired;
             InvoiceQR.PollSettled (BackendApi.Returns (paidReply 5));
             InvoiceQR.TimerFired]
            InvoiceQR.initial) = 1%nat.
Proof.
  assert (V : InvoiceQR.stopsAtVerdict
                [InvoiceQR.PollSettled
                   (BackendApi.Throws BackendApi.FetchRejected);
                 InvoiceQR.PollSettled (BackendApi.Returns pendingReply);
                 InvoiceQR.TimerFired;
                 InvoiceQR.PollSettled (BackendApi.Returns (paidReply 5));
                 InvoiceQR.TimerFired])
    by (cbn; repeat constructor).
  split; [exact V|].
  destruct (payment_success_called_once_when_paid
              [InvoiceQR.PollSettled
                 (BackendApi.Throws BackendApi.FetchRejected);
               InvoiceQR.PollSettled (BackendApi.Returns pendingReply);
               InvoiceQR.TimerFired;
               InvoiceQR.PollSettled (BackendApi.Returns (paidReply 5));
               InvoiceQR.TimerFired]) as (_ & D).
  destruct (D V) as [(C & _)|[(C & S & _)|(C & S & _)]];
    [exact C|discriminate S|discriminate S].
Defined.

Lemma panel_run_app es1 es2 st :
  InvoiceQR.run (es1 ++ es2)%list st
  = (fst (InvoiceQR.run es2 (fst (InvoiceQR.run es1 st))),
     (snd (InvoiceQR.run es1 st)
      + snd (InvoiceQR.run es2 (fst (InvoiceQR.run es1 st))))%nat).
Proof.
  revert st. induction es1 as [|[o|] es1 IH]; intros st;
    cbn [app InvoiceQR.run].
  - cbn [fst snd]. now destruct (InvoiceQR.run es2 st).
  - destruct (InvoiceQR.onPollSettled o st) as [st' called].
    rewrite IH. destruct (InvoiceQR.run es1 st') as [st1 n1].
    cbn [fst snd]. f_equal. lia.
  - apply IH.
Qed.

Lemma panel_polling_iff_pending es :
  InvoiceQR.status (fst (InvoiceQR.run es InvoiceQR.initial)) <> PENDING ->
  InvoiceQR.isPolling (fst (InvoiceQR.run es InvoiceQR.initial)) = false.
Proof.
  assert (G : forall st,
             InvoiceQR.isPolling st = true -> InvoiceQR.status st = PENDING ->
             InvoiceQR.status (fst (InvoiceQR.run es st)) <> PENDING ->
             InvoiceQR.isPolling (fst (InvoiceQR.run es st)) = false).
  { induction es as [|[o|] es IH]; intros st P S N; cbn [InvoiceQR.run] in *.
    - cbn [fst] in N. congruence.
    - unfold InvoiceQR.onPollSettled in *.
      destruct o as [r|err]; [destruct (InvoiceStatus.status r)|].
      + specialize (IH st P S). destruct (InvoiceQR.run es st). now apply IH.
      + match goal with
        | |- context [InvoiceQR.run es ?x] =>
            destruct (panel_never_pending_again es x) as (_ & Q);
            [discriminate|reflexivity|];
            destruct (InvoiceQR.run es x)
        end. exact Q.
      + match goal with
        | |- context [InvoiceQR.run es ?x] =>
            destruct (panel_never_pending_again es x) as (_ & Q);
            [discriminate|reflexivity|];
            destruct (InvoiceQR.run es x)
        end. exact Q.
      + specialize (IH st P S). destruct (InvoiceQR.run es st). now apply IH.
    - apply IH; [| |exact N]; unfold InvoiceQR.onTimer;
        now destruct (_ <=? 0). }
  now apply G.
Qed.

Lemma verdict_then_timers es1 es2 st :
  InvoiceQR.isPolling st = true -> InvoiceQR.status st = PENDING ->
  InvoiceQR.status (fst (InvoiceQR.run es1 st)) <> PENDING ->
  InvoiceQR.stopsAtVerdict (es1 ++ es2)%list ->
  Forall InvoiceQR.isTimer es2.
Proof.
  revert st. induction es1 as [|[o|] es1 IH]; intros st P S N V.
  - cbn in N. congruence.
  - cbn [app InvoiceQR.stopsAtVerdict InvoiceQR.conclusive] in V.
    cbn [InvoiceQR.run] in N. unfold InvoiceQR.onPollSettled in N.
    destruct o as [r|err]; [destruct (InvoiceStatus.status r)|].
    + apply (IH st P S); [|exact V]. now destruct (InvoiceQR.run es1 st).
    + apply Forall_app in V. tauto.
    + apply Forall_app in V. tauto.
    + apply (IH st P S); [|exact V]. now destruct (InvoiceQR.run es1 st).
  - cbn [app InvoiceQR.stopsAtVerdict InvoiceQR.conclusive] in V.
    cbn [InvoiceQR.run] in N.
    apply (IH (InvoiceQR.onTimer st)); try assumption;
      unfold InvoiceQR.onTimer; now destruct (_ <=? 0).
Qed.

(** X12.  Once the panel has left PENDING it never shows PENDING again and
    never polls again, whatever settles later, a poll that was still in
    flight included.  When no poll settles after the one that brought PAID
    or EXPIRED, that status is final and [onPaymentSuccess] is not called
    again. *)
Theorem panel_final_status_stays (es1 es2 : list InvoiceQR.Event) :
  InvoiceQR.status (fst (InvoiceQR.run es1 InvoiceQR.initial)) <> PENDING ->
  InvoiceQR.status (fst (InvoiceQR.run (es1 ++ es2)%list InvoiceQR.initial))
  <> PENDING
  /\ InvoiceQR.isPolling
       (fst (InvoiceQR.run (es1 ++ es2)%list InvoiceQR.initial)) = false
  /\ (InvoiceQR.stopsAtVerdict (es1 ++ es2)%list ->
      InvoiceQR.status
        (fst (InvoiceQR.run (es1 ++ es2)%list InvoiceQR.initial))
      = InvoiceQR.status (fst (InvoiceQR.run es1 InvoiceQR.initial))
      /\ snd (InvoiceQR.run (es1 ++ es2)%list InvoiceQR.initial)
         = snd (InvoiceQR.run es1 InvoiceQR.initial)).
Proof.
  intros N. rewrite panel_run_app. cbn [fst snd].
  pose proof (panel_polling_iff_pending es1 N) as P.
  destruct (panel_never_pending_again es2 _ N P) as (N' & P').
  split; [exact N'|]. split; [exact P'|].
  intros V.
  assert (T : Forall InvoiceQR.isTimer es2)
    by (apply (verdict_then_timers es1 es2 InvoiceQR.initial);
        [reflexivity|reflexivity|exact N|exact V]).
  destruct (panel_timers_only es2 (fst (InvoiceQR.run es1 InvoiceQR.initial)) T)
    as (S1 & _ & S3).
  split; [exact S1|]. rewrite S3. lia.
Qed.

Lemma panel_final_status_stays_witness :
  InvoiceQR.status
    (fst (InvoiceQR.run
            ([InvoiceQR.PollSettled (BackendApi.Returns (paidReply 5))]
             ++ [InvoiceQR.TimerFired;
                 InvoiceQR.PollSettled
                   (BackendApi.Returns
                      {| InvoiceStatus.status := EXPIRED;
                         InvoiceStatus.paid_at := None |})])%list
            InvoiceQR.initial))
  <> PENDING.
Proof.
  apply (panel_final_status_stays
           [InvoiceQR.PollSettled (BackendApi.Returns (paidReply 5))]
           [InvoiceQR.TimerFired;
            InvoiceQR.PollSettled
              (BackendApi.Returns
                 {| InvoiceStatus.status := EXPIRED;
                    InvoiceStatus.paid_at := None |})]).
  cbn. discriminate.
Defined.

Lemma session_stopped h ts api st :
  InvoiceQR.isPolling st = false ->
  InvoiceQR.session h ts api st = (api, st, 0%nat).
Proof.
  intros P. induction ts as [|t ts IH]; cbn [InvoiceQR.session];
    [reflexivity|]. now rewrite P.
Qed.

(** X13.  The panel polling the in-memory API for a new invoice: whatever
    the state was and however many polling periods follow, the first poll
    leaves the panel PENDING, the second one makes it PAID with one call of
    [onPaymentSuccess] and one donation, paid at the second poll, on the
    ledger, and no later period reaches the API. *)
Theorem panel_session_pays_at_second_poll
    (a : Z) (n r : option string) (created : Z) (s0 : State)
    (t1 t2 : Z) (later : list Z) :
  let c := createInvoice a n r created s0 in
  InvoiceQR.session (Invoice.payment_hash (fst c)) (t1 :: t2 :: later)
    (snd c) InvoiceQR.initial
  = ({| mockDonations :=
          newDonation (mockDonations s0) (fst c) t2 :: mockDonations s0;
        pendingInvoice := None;
        pollCount := 0 |},
     {| InvoiceQR.status := PAID;
        InvoiceQR.isPolling := false;
        InvoiceQR.timeRemaining := 3600 |},
     1%nat).
Proof.
  intros c. cbn [InvoiceQR.session InvoiceQR.initial InvoiceQR.isPolling].
  erewrite getInvoiceStatus_waiting;
    [|reflexivity|reflexivity|cbn; lia].
  cbn [InvoiceQR.onPollSettled pendingReply InvoiceStatus.status
       InvoiceQR.isPolling].
  erewrite getInvoiceStatus_paid;
    [|reflexivity|reflexivity|cbn; lia].
  cbn [InvoiceQR.onPollSettled paidReply InvoiceStatus.status
       InvoiceQR.timeRemaining].
  rewrite session_stopped by reflexivity. reflexivity.
Qed.

(** ** The countdown text *)

Lemma splitAtColon_uint d rest :
  InvoiceQR.splitAtColon (NilEmpty.string_of_uint d ++ String ":" rest)
  = Some (NilEmpty.string_of_uint d, rest).
Proof.
  induction d; cbn [NilEmpty.string_of_uint append InvoiceQR.splitAtColon];
    try rewrite IHd; reflexivity.
Qed.

Lemma splitAtColon_numToString z rest :
  InvoiceQR.splitAtColon (Js.numToString z ++ String ":" rest)
  = Some (Js.numToString z, rest).
Proof.
  unfold Js.numToString, NilEmpty.string_of_int.
  destruct (Z.to_int z) as [d|d].
  - apply splitAtColon_uint.
  - cbn [append InvoiceQR.splitAtColon]. cbn [Ascii.eqb Bool.eqb].
    now rewrite splitAtColon_uint.
Qed.

Lemma readNumber_numToString z :
  InvoiceQR.readNumber (Js.numToString z) = Some z.
Proof.
  unfold InvoiceQR.readNumber, Js.numToString.
  rewrite NilEmpty.isi. cbn [option_map]. now rewrite DecimalZ.of_to.
Qed.

Lemma padded_below_60 (k : nat) :
  (k < 60)%nat ->
  String.length (InvoiceQR.padStart 2 "0"%char (Js.numToString (Z.of_nat k)))
  = 2%nat
  /\ InvoiceQR.readNumber
       (InvoiceQR.padStart 2 "0"%char (Js.numToString (Z.of_nat k)))
     = Some (Z.of_nat k).
Proof.
  intros L.
  do 60 (destruct k as [|k]; [split; vm_compute; reflexivity|]).
  lia.
Qed.

(** X14.  For every number of seconds that is not negative, the text that
    [formatTime] writes is the minutes, a colon and the seconds: the text
    before its first colon reads as the whole minutes, the text after it has
    exactly two characters and reads as the remaining seconds, which are
    below 60, and the two give the number of seconds again. *)
Theorem formatTime_reads_back (seconds : Z) :
  0 <= seconds ->
  exists mins secs : string,
    InvoiceQR.formatTime seconds = mins ++ ":" ++ secs
    /\ InvoiceQR.splitAtColon (InvoiceQR.formatTime seconds) = Some (mins, secs)
    /\ InvoiceQR.readNumber mins = Some (seconds / 60)
    /\ String.length secs = 2%nat
    /\ InvoiceQR.readNumber secs = Some (seconds mod 60)
    /\ 0 <= seconds mod 60 < 60
    /\ InvoiceQR.readTime (InvoiceQR.formatTime seconds) = Some seconds.
Proof.
  intros N.
  pose proof (Z.mod_pos_bound seconds 60 ltac:(lia)) as B.
  destruct (padded_below_60 (Z.to_nat (seconds mod 60)) ltac:(lia))
    as (L & R).
  rewrite Z2Nat.id in L, R by lia.
  exists (Js.numToString (seconds / 60)).
  exists (InvoiceQR.padStart 2 "0"%char (Js.numToString (seconds mod 60))).
  assert (F : InvoiceQR.formatTime seconds
              = Js.numToString (seconds / 60) ++ ":"
                ++ InvoiceQR.padStart 2 "0"%char
                     (Js.numToString (seconds mod 60))).
  { unfold InvoiceQR.formatTime. now rewrite Z.rem_mod_nonneg by lia. }
  assert (S : InvoiceQR.splitAtColon (InvoiceQR.formatTime seconds)
              = Some (Js.numToString (seconds / 60),
                      InvoiceQR.padStart 2 "0"%char
                        (Js.numToString (seconds mod 60)))).
  { rewrite F. cbn [append]. apply splitAtColon_numToString. }
  split; [exact F|]. split; [exact S|].
  split; [apply readNumber_numToString|].
  split; [exact L|]. split; [exact R|]. split; [exact B|].
  unfold InvoiceQR.readTime. rewrite S, readNumber_numToString, R.
  f_equal. pose proof (Z.div_mod seconds 60 ltac:(lia)). lia.
Qed.

Lemma formatTime_reads_back_witness :
  InvoiceQR.formatTime 3599 = "59:59"
  /\ InvoiceQR.formatTime 65 = "1:05"
  /\ InvoiceQR.readTime (InvoiceQR.formatTime 3599) = Some 3599.
Proof.
  split; [vm_compute; reflexivity|]. split; [vm_compute; reflexivity|].
  destruct (formatTime_reads_back 3599) as (m & sec & _ & _ & _ & _ & _ & _ & R);
    [lia|exact R].
Defined.

(** * Properties of the page *)

Lemma page_invariant st :
  Home.reachable st ->
  (Home.view st = Home.InvoiceView -> Home.invoice st <> None)
  /\ (Home.view st = Home.ReceiptView -> Home.completedDonation st <> None)
  /\ (forall c, Home.completedDonation st = Some c -> Home.donor_name c <> "").
Proof.
  induction 1 as [|e st R (I1 & I2 & I3)].
  - cbn. repeat split; discriminate.
  - destruct e as [| inv | | [inv|] | | ds dst | | ];
      cbn [Home.handle Home.view Home.invoice Home.completedDonation];
      repeat split; try assumption; try discriminate.
    intros c E. injection E as <-. cbn [Home.donor_name].
    apply orElse_nonempty.
Qed.

(** X15.  The page always shows one of its three panels: in every state it
    can reach, with callbacks of earlier renders included, the left column
    is the form, the invoice panel or the receipt, never empty; and a
    receipt is always shown with a donor name that is not empty. *)
Theorem page_always_shows_a_panel (st : Home.State) :
  Home.reachable st ->
  Home.render st <> Home.NoPanel
  /\ (forall p, Home.render st = Home.ReceiptPanel p ->
        BackendApi.props_donor_name p <> "").
Proof.
  intros R. destruct (page_invariant st R) as (I1 & I2 & I3).
  unfold Home.render.
  destruct (Home.view st) eqn:V.
  - split; [discriminate|intros p E; discriminate E].
  - destruct (Home.invoice st) eqn:I; [|exfalso; now apply I1].
    split; [discriminate|intros p E; discriminate E].
  - destruct (Home.completedDonation st) as [c|] eqn:C;
      [|exfalso; now apply I2].
    split; [discriminate|].
    intros p E. injection E as <-. cbn [BackendApi.props_donor_name].
    now apply I3.
Qed.

Lemma page_always_shows_a_panel_witness :
  Home.render
    (Home.handle (Home.PaymentSuccess (Some Scenario.annInvoice))
       (Home.handle Home.Back
          (Home.handle (Home.CreateResolved Scenario.annInvoice)
             Home.initial)))
  <> Home.NoPanel.
Proof.
  apply page_always_shows_a_panel.
  do 3 apply Home.reachable_handle. apply Home.reachable_initial.
Defined.

(** * From the form to the dashboard *)



(** * Invoices and donations, counted *)

Lemma step_conserves now c s :
  (List.length (mockDonations (snd (step now c s)))
   + pendingCount (snd (step now c s))
   <= List.length (mockDonations s) + pendingCount s
      + creations [(now, c)])%nat.
Proof.
  destruct c as [a n r|h| |]; cbn [creations].
  - unfold pendingCount. cbn. destruct (pendingInvoice s); lia.
  - rewrite step_status_post. unfold getInvoiceStatus, pendingCount.
    destruct (pendingInvoice s) as [inv|] eqn:P;
      [|cbn [snd]; rewrite P; lia].
    destruct (negb _); [cbn [snd]; rewrite P; lia|].
    destruct (2 <=? _); cbn [snd mockDonations pendingInvoice List.length];
      lia.
  - cbn. lia.
  - cbn. lia.
Qed.

(** X17.  Donations only come from invoices, one at most from each: after
    any sequence of calls, the donations on the ledger and the invoice in
    the slot are together no more than there were before plus the invoices
    created by the calls; from the initial state, the ledger never has more
    donations than invoices were created. *)
Theorem donations_bounded_by_invoices (cs : list (Z * Call)) (s : State) :
  (List.length (mockDonations (run cs s)) + pendingCount (run cs s)
   <= List.length (mockDonations s) + pendingCount s + creations cs)%nat
  /\ (List.length (mockDonations (run cs init)) <= creations cs)%nat.
Proof.
  assert (G : forall s0,
             (List.length (mockDonations (run cs s0)) + pendingCount (run cs s0)
              <= List.length (mockDonations s0) + pendingCount s0
                 + creations cs)%nat).
  { induction cs as [|[now c] cs IH]; intros s0; [cbn; lia|].
    cbn [run]. specialize (IH (snd (step now c s0))).
    pose proof (step_conserves now c s0) as C.
    assert (creations ((now, c) :: cs)
            = (creations [(now, c)] + creations cs)%nat) as ->
      by (destruct c; reflexivity).
    lia. }
  split; [apply G|].
  specialize (G init). cbn in G. lia.
Qed.
